(** * Habit Grove: the state engine of [script.js]

    A shallow embedding of the habit tracker's in-memory state and of the
    functions and event handlers that read and change it, followed by the
    properties of the completion ledger, the score, the level table, the
    streak walk, the calendar window, the registry and what the render
    functions show.

    Conventions of the embedding.
    - A JavaScript object used as a dictionary is a finite map ([gmap]);
      an absent key reads as [undefined], i.e. [None].  The keys are own
      keys: the names every object inherits ([constructor], [toString],
      ...) are no habit ids of the page, which are the three default ids
      and "habit_" followed by digits.  A property that would not hold
      of the source at an id of such a name says [ownId] of the ids it
      is about.  The values of a day entry are booleans, as
      [toggleHabitForToday] stores them from [input.checked].
    - [state.points], [order] and the millisecond time values of [Date]
      are integer-valued Numbers and are represented by [Z]; a property
      that depends on a sum being exact bounds it by [maxExactInteger].
    - The global [state] is threaded explicitly: a handler is a function
      [State -> State].  Whatever a handler reads from the host (the
      clock, the time zone) is an explicit argument.
    - The DOM is not modelled as a tree: a render function is embedded
      by its effect on [state] and by the data it writes into the page
      (items, options, rows, cells and their texts).  [localStorage] and
      the texts made by the host's locale are left out. *)

From Stdlib Require Import ZArith Lia List.
From Stdlib Require Import Floats.PrimFloat Floats.FloatOps Floats.SpecFloat.
From Stdlib Require Import Numbers.Cyclic.Int63.Uint63.
From stdpp Require Import gmap strings list fin_maps pretty sorting.

Local Open Scope string_scope.
Local Open Scope Z_scope.

(** ** Data model *)

(** A day key is what [toISOString().slice(0, 10)] returns: the UTC
    calendar day of a time value, written "YYYY-MM-DD".  The embedding
    names a key by the number of its day, counted from 1970-01-01;
    [JSDate.isoKey] below prints the text, and for the years 0000 to 9999
    distinct days have distinct texts ([isoKey_inj]).  The order of the
    keys is the order of the days, which is how these fixed-width texts
    compare. *)
Abbreviation DayKey := Z (only parsing).

Module Habit.
Record t := mk {
  id : string;
  name : string;
  createdAt : DayKey;
  order : Z;
}.
End Habit.

(** [completions[date][habitId] = true/false] *)
Record State := mkState {
  habits : list Habit.t;
  completions : gmap Z (gmap string bool);
  points : Z;
}.

Definition set_completions (c : gmap Z (gmap string bool)) (st : State) : State :=
  {| habits := habits st; completions := c; points := points st |}.

Definition set_points (p : Z) (st : State) : State :=
  {| habits := habits st; completions := completions st; points := p |}.

Definition set_habits (hs : list Habit.t) (st : State) : State :=
  {| habits := hs; completions := completions st; points := points st |}.

(** [Boolean(day[habitId])] on the own properties of [day]: a missing
    key is [undefined], which is falsy.  Under a name that
    [Object.prototype] holds the source finds the inherited value where
    there is no own one: see [ownId] and [readTruthy] below. *)
Definition Boolean (v : option bool) : bool := default false v.

Definition msPerDay : Z := 86400000.

(** [new Date().toISOString().slice(0, 10)] at clock reading [now]
    (milliseconds since the epoch): the UTC day of [now]. *)
Definition getTodayKey (now : Z) : DayKey := now `div` msPerDay.

(** ** Own and inherited properties, exact Numbers

    A day entry is an ordinary object.  A read [day[habitId]] that finds
    no own property under [habitId] goes on to [Object.prototype], which
    holds a function or an accessor, a truthy value, under each of the
    names below; and an assignment [day[habitId] = done] makes an own
    property under every name but "__proto__", whose setter ignores a
    boolean.  The finite map of a day entry holds its own properties: it
    reads and writes as the source's object does at every id that is
    none of these names, which is what [ownId] says.  The ids the page
    makes, the default ones and "habit_" followed by digits, are of that
    kind; a stored snapshot can hold others. *)
Definition inheritedNames : list string := [
  "constructor"; "hasOwnProperty"; "isPrototypeOf"; "propertyIsEnumerable";
  "toLocaleString"; "toString"; "valueOf"; "__proto__";
  "__defineGetter__"; "__defineSetter__"; "__lookupGetter__"; "__lookupSetter__"
].

Definition ownId (habitId : string) : Prop := habitId ∉ inheritedNames.

#[global] Instance ownId_dec (habitId : string) : Decision (ownId habitId).
Proof. unfold ownId. apply _. Defined.

Definition ownIds (hs : list Habit.t) : Prop :=
  Forall (λ h, ownId (Habit.id h)) hs.

#[global] Instance ownIds_dec (hs : list Habit.t) : Decision (ownIds hs).
Proof. unfold ownIds. apply _. Defined.

(** What [day[habitId]] and [day[habitId] = done] do at every name, on
    the own properties of the entry.  An inherited property is a
    function or an object, so all the source sees of it is that it is
    truthy. *)
Definition readTruthy (day : gmap string bool) (habitId : string) : bool :=
  match day !! habitId with
  | Some v => v
  | None => bool_decide (habitId ∈ inheritedNames)
  end.

Definition assignProperty (day : gmap string bool) (habitId : string) (done : bool)
    : gmap string bool :=
  if decide (habitId = "__proto__" ∧ day !! habitId = None) then day
  else <[habitId := done]> day.

(** Numbers are binary64 values.  Every integer of magnitude up to
    [2 ^ 53] is one, and a sum or a difference of two of them that stays
    within that magnitude is exact: there [Z] is the source's
    arithmetic. *)
Definition maxExactInteger : Z := 2 ^ 53.

(** ** Completion ledger *)

Definition ensureDateEntry (dateKey : DayKey) (st : State) : State :=
  match completions st !! dateKey with
  | Some _ => st
  | None => set_completions (<[dateKey := ∅]> (completions st)) st
  end.

Definition isHabitDoneOnDate (st : State) (habitId : string) (dateKey : DayKey) : bool :=
  match completions st !! dateKey with
  | Some day => Boolean (day !! habitId)
  | None => false
  end.

(** The three render calls that end [toggleHabitForToday] only read
    [state]; [saveState] serialises it. *)
Definition toggleHabitForToday (now : Z) (habitId : string) (done : bool)
    (st : State) : State :=
  let todayKey := getTodayKey now in
  let st := ensureDateEntry todayKey st in
  let day := default ∅ (completions st !! todayKey) in
  let alreadyDone := Boolean (day !! habitId) in
  let st := set_completions (<[todayKey := <[habitId := done]> day]> (completions st)) st in
  if negb alreadyDone && done then set_points (points st + 5) st
  else if alreadyDone && negb done then set_points (Z.max 0 (points st - 5)) st
  else st.

(** [renderHabitList]: its effect on [state] is the call of
    [ensureDateEntry] for today; the rest builds DOM nodes from reads. *)
Definition renderHabitList (now : Z) (st : State) : State :=
  ensureDateEntry (getTodayKey now) st.

(** The [change] listener of a habit's checkbox. *)
Definition onCheckboxChange (now : Z) (habitId : string) (checked : bool)
    (st : State) : State :=
  renderHabitList now (toggleHabitForToday now habitId checked st).

(** The body of the [forEach] over [Object.keys(day)] in the clear-today
    handler, as a function of the running [state.points].  It does not
    look at the key, so the order of the keys is of no consequence. *)
Definition clearStep (habitId : string) (v : bool) (pts : Z) : Z :=
  if v then Z.max 0 (pts - 5) else pts.

(** The [click] listener of the clear-today button. *)
Definition clearToday (now : Z) (st : State) : State :=
  let todayKey := getTodayKey now in
  match completions st !! todayKey with
  | None => st
  | Some day =>
      let st := set_points (map_fold clearStep (points st) day) st in
      let st := set_completions (<[todayKey := ∅]> (completions st)) st in
      renderHabitList now st
  end.

(** ** Calendar aggregation *)

(** The callback of [state.habits.forEach] in [getDateCompletionQuality]. *)
Definition countDone (day : gmap string bool) (doneCount : Z) (habit : Habit.t) : Z :=
  if Boolean (day !! Habit.id habit) then doneCount + 1 else doneCount.

Definition getDateCompletionQuality (st : State) (dateKey : DayKey) : string :=
  match completions st !! dateKey with
  | None => ""
  | Some day =>
      let totalHabits := Z.of_nat (length (habits st)) in
      if totalHabits =? 0 then ""
      else
        let doneCount := fold_left (countDone day) (habits st) 0 in
        if doneCount =? 0 then "missed"
        else if doneCount =? totalHabits then "done"
        else "partial"
  end.

(** The class name of a calendar cell no day entry exists for. *)
Definition unrecorded : string := "".

(** ** The host's [Date]: time values, calendar fields, local time

    Time values are milliseconds since 1970-01-01T00:00Z.  The definitions
    follow the abstract operations of ECMAScript's Date objects, under
    their names.  [TimeClip] is left out: every time value below stays far
    inside the range of 8.64e15 ms. *)
Module JSDate.

Definition Day (t : Z) : Z := t `div` msPerDay.
Definition TimeWithinDay (t : Z) : Z := t `mod` msPerDay.

(** The proleptic Gregorian calendar, in eras of 400 years (146097 days)
    that start on a 1st of March.  [civil_of_doe] reads a day of the era
    as (year of the era counted from March, month 1..12, day of the
    month); [doe_of_civil] is its inverse. *)
Definition civil_of_doe (doe : Z) : Z * Z * Z :=
  let yoe := (doe - doe / 1460 + doe / 36524 - doe / 146096) / 365 in
  let doy := doe - (365 * yoe + yoe / 4 - yoe / 100) in
  let mp := (5 * doy + 2) / 153 in
  let d := doy - (153 * mp + 2) / 5 + 1 in
  let m := if mp <? 10 then mp + 3 else mp - 9 in
  (yoe, m, d).

Definition doe_of_civil (yoe m d : Z) : Z :=
  let mp := if 2 <? m then m - 3 else m + 9 in
  let doy := (153 * mp + 2) / 5 + d - 1 in
  yoe * 365 + yoe / 4 - yoe / 100 + doy.

(** Day number to (year, month 1..12, day of the month). *)
Definition civil_from_days (z : Z) : Z * Z * Z :=
  let z := z + 719468 in
  let era := z / 146097 in
  let '(yoe, m, d) := civil_of_doe (z - era * 146097) in
  let y := yoe + era * 400 in
  (if m <=? 2 then y + 1 else y, m, d).

(** (year, month 1..12, day of the month) to day number; [d] may lie
    outside the month, as [MakeDay] needs it. *)
Definition days_from_civil (y m d : Z) : Z :=
  let y := if m <=? 2 then y - 1 else y in
  let era := y / 400 in
  era * 146097 + doe_of_civil (y - era * 400) m d - 719468.

Definition YearFromTime (t : Z) : Z := (civil_from_days (Day t)).1.1.
(** Months are numbered from 0, as in ECMAScript. *)
Definition MonthFromTime (t : Z) : Z := (civil_from_days (Day t)).1.2 - 1.
Definition DateFromTime (t : Z) : Z := (civil_from_days (Day t)).2.

(** [MakeDay(year, month, date)]: the day number of the first of the
    month, plus [date - 1]. *)
Definition MakeDay (year month date : Z) : Z :=
  let ym := year + month / 12 in
  let mn := month `mod` 12 in
  days_from_civil ym (mn + 1) 1 + date - 1.

Definition MakeDate (day time : Z) : Z := day * msPerDay + time.

(** The host's time zone: [LocalTZA(t, isUTC)], the offset of local time
    from UTC in milliseconds, at the UTC time [t] ([isUTC = true]) or at
    the local wall-clock time [t] ([isUTC = false]). *)
Definition TimeZone : Type := Z → bool → Z.

Definition LocalTime (tz : TimeZone) (t : Z) : Z := t + tz t true.
Definition UTC (tz : TimeZone) (t : Z) : Z := t - tz t false.

(** [Date.prototype.getDate] and [Date.prototype.setDate], on the time
    value of the Date object: both work on local time. *)
Definition getDate (tz : TimeZone) (t : Z) : Z := DateFromTime (LocalTime tz t).

Definition setDate (tz : TimeZone) (t : Z) (date : Z) : Z :=
  let lt := LocalTime tz t in
  let newDate :=
    MakeDate (MakeDay (YearFromTime lt) (MonthFromTime lt) date) (TimeWithinDay lt) in
  UTC tz newDate.

(** [d.toISOString().slice(0, 10)] as a day key: the UTC day of [d]. *)
Definition isoDay (t : Z) : DayKey := Day t.

(** [new Date(dateKey)]: a date-only ISO string denotes UTC midnight. *)
Definition parseKey (dateKey : DayKey) : Z := dateKey * msPerDay.

(** Decimal digits, and numbers padded with zeros to two and to four
    digits. *)
Definition digit (v : Z) : Ascii.ascii := Ascii.ascii_of_N (Z.to_N (48 + v)).

Definition pad2 (v : Z) : string :=
  String (digit (v / 10)) (String (digit (v `mod` 10)) "").

Definition pad4 (v : Z) : string :=
  String (digit (v / 1000))
    (String (digit ((v / 100) `mod` 10))
       (String (digit ((v / 10) `mod` 10)) (String (digit (v `mod` 10)) ""))).

(** The text of a day key, for the years 0000 to 9999. *)
Definition isoKey (dateKey : DayKey) : string :=
  let '(y, m, d) := civil_from_days dateKey in
  pad4 y ++ "-" ++ pad2 m ++ "-" ++ pad2 d.

(** The year a day key starts with. *)
Definition isoYear (dateKey : DayKey) : Z := (civil_from_days dateKey).1.1.

(** A host on UTC, and more generally on a zone without clock changes. *)
Definition fixedZone (offset : Z) : TimeZone := λ _ _, offset.
Definition utcZone : TimeZone := fixedZone 0.

Definition msPerHour : Z := 3600000.

(** Central European time during 2024: UTC+1, and UTC+2 (summer time)
    from 2024-03-31T01:00Z until 2024-10-27T01:00Z.  A wall-clock time
    that is skipped or repeated at a change is read with the offset in
    force before the change, as ECMAScript prescribes. *)
Definition cestStart2024 : Z := MakeDate (days_from_civil 2024 3 31) msPerHour.
Definition cestEnd2024 : Z := MakeDate (days_from_civil 2024 10 27) msPerHour.

Definition europeBerlin2024 : TimeZone := λ t isUTC,
  if isUTC then
    if (cestStart2024 <=? t) && (t <? cestEnd2024)
    then 2 * msPerHour else msPerHour
  else
    if (cestStart2024 + 2 * msPerHour <=? t) && (t <? cestEnd2024 + 2 * msPerHour)
    then 2 * msPerHour else msPerHour.

End JSDate.

(** ** Streak *)

(** The [while (true)] loop of [computeStreak], run for at most [fuel]
    iterations; [None] when the loop has not reached its [break] by
    then.  [cursor] is the time value of the Date object. *)
Fixpoint streakLoop (tz : JSDate.TimeZone) (st : State) (habitId : string)
    (fuel : nat) (cursor : Z) (streak : Z) : option Z :=
  match fuel with
  | O => None
  | S fuel =>
      let key := JSDate.isoDay cursor in
      match completions st !! key with
      | None => Some streak
      | Some day =>
          if Boolean (day !! habitId)
          then streakLoop tz st habitId fuel
                 (JSDate.setDate tz cursor (JSDate.getDate tz cursor - 1))
                 (streak + 1)
          else Some streak
      end
  end.

Definition computeStreak (tz : JSDate.TimeZone) (now : Z) (st : State)
    (habitId : string) (fuel : nat) : option Z :=
  let todayKey := getTodayKey now in
  streakLoop tz st habitId fuel (JSDate.parseKey todayKey) 0.

(** ** Calendar window *)

Module Cell.
Record t := mk { key : DayKey; date : Z }.
End Cell.

(** The [for] loop of [buildCalendarRange]: [n] iterations are left, the
    next one runs with [i = n - 1]. *)
Fixpoint calendarLoop (tz : JSDate.TimeZone) (today : Z) (n : nat) : list Cell.t :=
  match n with
  | O => []
  | S i =>
      let d := JSDate.setDate tz today (JSDate.getDate tz today - Z.of_nat i) in
      Cell.mk (JSDate.isoDay d) d :: calendarLoop tz today i
  end.

Definition buildCalendarRange (tz : JSDate.TimeZone) (now : Z) (daysBack : nat)
    : list Cell.t :=
  let today := JSDate.parseKey (getTodayKey now) in
  calendarLoop tz today daysBack.

(** ** Levels and scoring *)

(** Numbers in [getLevelInfo]'s arithmetic are IEEE 754 binary64 values;
    they are the kernel's primitive floats here. *)
Module JSNumber.

(** The Number of an integer of magnitude below 2^53 (exact). *)
Definition ofZ (z : Z) : float :=
  if z <? 0 then PrimFloat.opp (PrimFloat.of_uint63 (Uint63.of_Z (- z)))
  else PrimFloat.of_uint63 (Uint63.of_Z z).

(** [Math.round(x)] for a finite [x]: the integer closest to [x], the
    larger one on a tie, that is the floor of [x + 1/2] taken exactly.
    [x] is [num * 2 ^ e].  Zeros give 0; infinities and NaN do not occur
    in [getLevelInfo], whose divisor is a positive span. *)
Definition Math_round (x : float) : Z :=
  match Prim2SF x with
  | S754_finite s m e =>
      let num := if s then Z.neg m else Z.pos m in
      if 0 <=? e then num * 2 ^ e
      else (2 * num + 2 ^ (- e)) / (2 * 2 ^ (- e))
  | _ => 0
  end.

End JSNumber.

Module Level.
Record t := mk { label : string; threshold : Z }.
End Level.

Definition LEVELS : list Level.t := [
  Level.mk "Seedling" 0;
  Level.mk "Sprout" 40;
  Level.mk "Sapling" 120;
  Level.mk "Young tree" 260;
  Level.mk "Grove guardian" 480
].

Module LevelInfo.
Record t := mk { label : string; progressPercent : Z; caption : string }.
End LevelInfo.

(** One iteration of the [for] loop of [getLevelInfo] on the pair
    ([current], [next]); [LEVELS[i + 1] || null] is [LEVELS !! S i]. *)
Definition levelStep (points : Z) (acc : Level.t * option Level.t) (i : nat)
    : Level.t * option Level.t :=
  match LEVELS !! i with
  | Some lv => if Level.threshold lv <=? points then (lv, LEVELS !! S i) else acc
  | None => acc
  end.

Definition topCaption : string :=
  "You reached the top tier – keep the grove thriving!".

(** [Math.min(100, Math.round((into / span) * 100))]: the quotient and
    the product are binary64 operations. *)
Definition progressPercentOf (into span : Z) : Z :=
  Z.min 100
    (JSNumber.Math_round
       (PrimFloat.mul (PrimFloat.div (JSNumber.ofZ into) (JSNumber.ofZ span))
          (JSNumber.ofZ 100))).

(** [current] starts as [LEVELS[0]] and [next] as [null]; the template
    literal of the caption prints an integer in decimal. *)
Definition getLevelInfo (points : Z) : LevelInfo.t :=
  let level0 := default (Level.mk "" 0) (LEVELS !! 0%nat) in
  let '(current, next) :=
    fold_left (levelStep points) (seq 0 (length LEVELS)) (level0, None) in
  match next with
  | None => LevelInfo.mk (Level.label current) 100 topCaption
  | Some next =>
      let span := Level.threshold next - Level.threshold current in
      let into := points - Level.threshold current in
      let pct := progressPercentOf into span in
      LevelInfo.mk (Level.label current) pct
        (pretty (Level.threshold next - points) ++ " points until "
           ++ Level.label next ++ ".")
  end.

(** ** Habit registry *)

(** [String.prototype.trim] removes white space and line terminators from
    both ends.  Strings are byte strings holding UTF-8; [whiteSpace] lists
    the encodings of the code points ECMAScript counts: U+0009 to U+000D,
    U+0020, U+00A0, U+1680, U+2000 to U+200A, U+2028, U+2029, U+202F,
    U+205F, U+3000 and U+FEFF. *)
Definition bytes (l : list nat) : string :=
  String.string_of_list_ascii (map Ascii.ascii_of_nat l).

Definition whiteSpace : list string :=
  map bytes
    (app [ [9]; [10]; [11]; [12]; [13]; [32]; [194; 160]; [225; 154; 128] ]
    (app (map (λ b, [226; 128; b]) [128; 129; 130; 131; 132; 133; 134; 135; 136; 137; 138])
         [ [226; 128; 168]; [226; 128; 169]; [226; 128; 175]; [226; 129; 159];
           [227; 128; 128]; [239; 187; 191] ]))%nat.

Fixpoint dropPrefix (p s : string) : option string :=
  match p, s with
  | EmptyString, _ => Some s
  | String a p, String b s => if Ascii.eqb a b then dropPrefix p s else None
  | String _ _, EmptyString => None
  end.

(** The rest of [s] after one white space at its start, if there is one. *)
Definition dropWhiteSpace (ws : list string) (s : string) : option string :=
  list_find (λ r, is_Some r) (map (λ w, dropPrefix w s) ws) ≫= snd.

Fixpoint trimStartFrom (ws : list string) (n : nat) (s : string) : string :=
  match n with
  | O => s
  | S n =>
      match dropWhiteSpace ws s with
      | Some rest => trimStartFrom ws n rest
      | None => s
      end
  end.

Definition trimStart (s : string) : string :=
  trimStartFrom whiteSpace (String.length s) s.

Definition trimEnd (s : string) : string :=
  String.rev (trimStartFrom (map String.rev whiteSpace) (String.length s) (String.rev s)).

Definition trim (s : string) : string := trimEnd (trimStart s).

(** [h.order || 0] *)
Definition orderOr0 (h : Habit.t) : Z :=
  if Habit.order h =? 0 then 0 else Habit.order h.

(** [state.habits.length ? Math.max(...state.habits.map(...)) + 1 : 0] *)
Definition nextOrder (hs : list Habit.t) : Z :=
  match map orderOr0 hs with
  | [] => 0
  | o :: os => fold_left Z.max os o + 1
  end.

(** The [submit] listener of the add-habit form: [input] is the value of
    the name field, [now] the reading of the clock ([Date.now()]). *)
Definition addHabit (now : Z) (input : string) (st : State) : State :=
  let name := trim input in
  if decide (name = "") then st
  else
    let id := "habit_" ++ pretty now in
    let order := nextOrder (habits st) in
    let st :=
      set_habits (app (habits st) [Habit.mk id name (getTodayKey now) order]) st in
    renderHabitList now st.

(** ** Initial state and events *)

Definition DEFAULT_HABITS : list (string * string) := [
  ("water", "Drink 6 glasses of water");
  ("move", "Move your body for 20 minutes");
  ("read", "Read for 10 minutes")
].

Definition createInitialState (now : Z) : State :=
  let today := getTodayKey now in
  {| habits :=
       imap (λ index h, Habit.mk h.1 h.2 today (Z.of_nat index)) DEFAULT_HABITS;
     completions := ∅;
     points := 0 |}.

(** What the page does after it is loaded: each event carries the clock
    reading at which its handler runs. *)
Inductive Event :=
  | Check (now : Z) (habitId : string) (checked : bool)
  | ClearToday (now : Z)
  | AddHabit (now : Z) (input : string)
  | Render (now : Z).

Definition handle (e : Event) (st : State) : State :=
  match e with
  | Check now habitId checked => onCheckboxChange now habitId checked st
  | ClearToday now => clearToday now st
  | AddHabit now input => addHabit now input st
  | Render now => renderHabitList now st
  end.

(** The states the page goes through: the state after each event. *)
Fixpoint trace (es : list Event) (st : State) : list State :=
  match es with
  | [] => []
  | e :: es => let st' := handle e st in st' :: trace es st'
  end.

Definition run (es : list Event) (st : State) : State :=
  fold_left (λ st e, handle e st) es st.

(** ** What the render functions show

    The render functions write into the page what they read from [state].
    Each is embedded by the data it writes, in the order it writes them;
    texts that depend on the host's locale ([toLocaleDateString],
    [Intl.DateTimeFormat]) are left as the value they are made from. *)

(** [state.habits.slice().sort((a, b) => a.order - b.order)].
    [Array.prototype.sort] is stable, and the comparator is a total
    preorder on integer orders, so the result is the one stable sorted
    arrangement of the list; the sort by insertion computes it. *)
Fixpoint insertByOrder (h : Habit.t) (l : list Habit.t) : list Habit.t :=
  match l with
  | [] => [h]
  | h' :: l' =>
      if Habit.order h <=? Habit.order h' then h :: h' :: l'
      else h' :: insertByOrder h l'
  end.

Definition sortByOrder (l : list Habit.t) : list Habit.t :=
  foldr insertByOrder [] l.

Definition noStreakText : string := "No streak yet – start today".

(** [streak ? `${streak} day streak` : "No streak yet – start today"] *)
Definition streakText (streak : Z) : string :=
  if streak =? 0 then noStreakText else pretty streak ++ " day streak".

Module Item.
Record t := mk { name : string; checked : bool; streak : string }.
End Item.

(** One [li] of the habit list: the state of its checkbox, the name and
    the streak line; [None] when the loop of [computeStreak] has not
    ended within [fuel] iterations. *)
Definition habitItem (tz : JSDate.TimeZone) (now : Z) (fuel : nat) (st : State)
    (habit : Habit.t) : option Item.t :=
  let todayKey := getTodayKey now in
  let checked := isHabitDoneOnDate st (Habit.id habit) todayKey in
  match computeStreak tz now st (Habit.id habit) fuel with
  | Some streak => Some (Item.mk (Habit.name habit) checked (streakText streak))
  | None => None
  end.

(** The items [renderHabitList] appends to the list, in order; they are
    read after [ensureDateEntry]. *)
Definition habitListItems (tz : JSDate.TimeZone) (now : Z) (fuel : nat) (st : State)
    : list (option Item.t) :=
  let st := renderHabitList now st in
  map (habitItem tz now fuel st) (sortByOrder (habits st)).

(** The [option]s of [renderHistoryOptions]: value and text. *)
Definition historyOptions (st : State) : list (string * string) :=
  map (λ habit, (Habit.id habit, Habit.name habit)) (sortByOrder (habits st)).

(** [Array.prototype.sort()] without a comparator orders the keys as
    texts, code unit by code unit. *)
Definition keyLe (a b : DayKey) : Prop :=
  String.le (JSDate.isoKey a) (JSDate.isoKey b).

(** [Object.keys(state.completions).sort().reverse()] *)
Definition historyKeys (st : State) : list DayKey :=
  reverse (merge_sort keyLe (map fst (map_to_list (completions st)))).

(** [historyHabitSelectEl.value || state.habits[0]?.id], and the test
    [!selectedHabitId] that follows it: [selectValue] is the value of the
    select element, the empty string when nothing is selected; the result
    is [None] when the id is [undefined] or the empty string, which are
    the falsy ones. *)
Definition selectedHabitId (selectValue : string) (st : State) : option string :=
  let id :=
    if decide (selectValue = "") then Habit.id <$> head (habits st)
    else Some selectValue in
  match id with
  | Some id => if decide (id = "") then None else Some id
  | None => None
  end.

(** [renderHistory]: [shown] is what the history list holds before the
    call, the result what it holds after it.  A row is the day key (the
    page prints [formatDateLabel] of it) and the status text. *)
Definition renderHistory (selectValue : string) (shown : list (DayKey * string))
    (st : State) : list (DayKey * string) :=
  match selectedHabitId selectValue st with
  | None => shown
  | Some habitId =>
      map (λ dateKey,
             (dateKey,
              if isHabitDoneOnDate st habitId dateKey then "Done" else "Missed"))
        (historyKeys st)
  end.

(** [renderCalendar]: for each cell of the range the number it prints,
    [cell.date.getDate()], and the class it adds, the quality of
    [cell.key]. *)
Definition calendarCells (tz : JSDate.TimeZone) (now : Z) (st : State)
    : list (Z * string) :=
  map (λ cell,
         (JSDate.getDate tz (Cell.date cell),
          getDateCompletionQuality st (Cell.key cell)))
    (buildCalendarRange tz now 28).

(** The clock reading an event carries, and the clock readings at which
    a run of events adds a habit. *)
Definition eventTime (e : Event) : Z :=
  match e with
  | Check now _ _ | ClearToday now | AddHabit now _ | Render now => now
  end.

Definition addTimes (es : list Event) : list Z :=
  omap (λ e, match e with
             | AddHabit now input =>
                 if decide (trim input = "") then None else Some now
             | _ => None
             end) es.

Module Panel.
Record t := mk { points : string; level : string; width : string; caption : string }.
End Panel.

(** [renderPointsAndLevel]: the texts of the points and of the level, the
    width of the progress bar, [`${info.progressPercent}%`], and the
    caption. *)
Definition renderPointsAndLevel (st : State) : Panel.t :=
  let info := getLevelInfo (points st) in
  Panel.mk (pretty (points st)) (LevelInfo.label info)
    (pretty (LevelInfo.progressPercent info) ++ "%") (LevelInfo.caption info).

(** ** The specification's vocabulary

    The definitions of this section follow the words of the specification
    and not the code; the theorems compare the code with them. *)

(** Section 4.3: [+5] for a change from not done to done, [-5] for a
    change from done to not done, [0] otherwise. *)
Definition spec_pointsDelta (was done : bool) : Z :=
  if negb was && done then 5
  else if was && negb done then -5
  else 0.

(** Section 4.4: [points = max(0, points + pointsDelta)]. *)
Definition spec_applyDelta (points pointsDelta : Z) : Z :=
  Z.max 0 (points + pointsDelta).

(** The number of habit ids a day entry maps to [true]. *)
Definition countTrue (day : gmap string bool) : Z :=
  Z.of_nat (size (filter (λ kv, kv.2 = true) day)).

(** The number of (day, habit id) marks of the ledger that are [true]. *)
Definition totalDone (c : gmap Z (gmap string bool)) : Z :=
  map_fold (λ _ day acc, countTrue day + acc) 0 c.

(** Sections 3 and 4.3: the score is made of one [+5] for each mark that
    is [true]. *)
Definition pointsMatchLedger (st : State) : Prop :=
  points st = 5 * totalDone (completions st).

(** The number of habits of the registry that are done on [dateKey]. *)
Definition spec_doneCount (st : State) (dateKey : DayKey) : nat :=
  length (filter (λ h, isHabitDoneOnDate st (Habit.id h) dateKey = true) (habits st)).

(** [round(num / den)] for [den > 0]: the closest integer, the larger one
    on a tie. *)
Definition spec_round (num den : Z) : Z := (2 * num + den) / (2 * den).

(** Section 4.4: [min(100, round(100 * (points - current) / (next - current)))]. *)
Definition spec_progressPercent (points current next : Z) : Z :=
  Z.min 100 (spec_round (100 * (points - current)) (next - current)).

(** Section 4.2: [order = 1 + max(existing orders, default -1)]. *)
Definition spec_maxOrder (hs : list Habit.t) : Z :=
  match map Habit.order hs with
  | [] => -1
  | o :: os => fold_right Z.max o os
  end.

(** Section 4.5: [n] is the streak of [habitId] at [today] when the habit
    is done on each of the [n] days that end with [today] and not done on
    the day before them. *)
Definition spec_streak (st : State) (habitId : string) (today : DayKey) (n : Z) : Prop :=
  0 ≤ n
  ∧ (∀ i, 0 ≤ i < n → isHabitDoneOnDate st habitId (today - i) = true)
  ∧ isHabitDoneOnDate st habitId (today - n) = false.

(** Section 4.1: [size] consecutive day keys that end with [endKey],
    oldest first. *)
Definition spec_window (endKey : DayKey) (size : nat) : list Z :=
  map (λ i, endKey - Z.of_nat (size - 1 - i)) (seq 0 size).

(** ** Devices of the proofs *)

(** [check i && check (i + 1) && ...], [n] values in all. *)
Fixpoint allFrom (check : Z → bool) (i : Z) (n : nat) : bool :=
  match n with
  | O => true
  | S n => check i && allFrom check (i + 1) n
  end.

(** At [p], between the thresholds [current] and [next], the code's
    percentage is the specification's; 23 and 86 are left out. *)
Definition pctOk (current next p : Z) : bool :=
  (p =? 23) || (p =? 86)
  || (progressPercentOf (p - current) (next - current)
      =? spec_progressPercent p current next).

Ltac decide_leb :=
  repeat match goal with
    | |- context [?a <=? ?b] =>
        first [ rewrite (proj2 (Z.leb_le a b)) by lia
              | rewrite (proj2 (Z.leb_gt a b)) by lia ]
    end.

Ltac solve_ownId := apply (bool_decide_unpack _); vm_compute; exact I.

Ltac solve_ownIds := apply (bool_decide_unpack _); vm_compute; exact I.

Ltac run_level_loop :=
  unfold getLevelInfo, levelStep;
  cbn -[Z.leb Z.sub progressPercentOf pretty String.append];
  decide_leb.

(** Dates as (year, month, day), in the order of the calendar. *)
Definition dateLt (a b : Z * Z * Z) : Prop :=
  a.1.1 < b.1.1
  ∨ (a.1.1 = b.1.1 ∧ (a.1.2 < b.1.2 ∨ (a.1.2 = b.1.2 ∧ a.2 < b.2))).

(** At [p], between the thresholds [current] and [next], the code's
    percentage lies between 0 and 100 and is not above the one at
    [p + 1]. *)
Definition pctStep (current next p : Z) : bool :=
  let a := progressPercentOf (p - current) (next - current) in
  let b := progressPercentOf (p + 1 - current) (next - current) in
  (0 <=? a) && (a <=? b) && (b <=? 100).

(** ** Invariants *)

(** The days of the ledger have keys of four-digit years. *)
Definition yearsOk (c : gmap Z (gmap string bool)) : Prop :=
  ∀ d, is_Some (c !! d) → 0 ≤ JSDate.isoYear d ≤ 9999.

(** The orders of the habits are their positions in the registry. *)
Definition ordersArePositions (hs : list Habit.t) : Prop :=
  map Habit.order hs = map Z.of_nat (seq 0 (length hs)).

(** The invariant of the registry. *)
Definition registryOk (st : State) : Prop :=
  ordersArePositions (habits st)
  ∧ Forall (λ h, Habit.name h ≠ "" ∧ Habit.id h ≠ "") (habits st)
  ∧ habits st ≠ [].

(** ** Example states *)

(** A ledger in which [habitId] is done on each of the [n] days that
    start with [first]. *)
Fixpoint doneDays (habitId : string) (first : Z) (n : nat) : gmap Z (gmap string bool) :=
  match n with
  | O => ∅
  | S n => <[first := {[habitId := true]}]> (doneDays habitId (first + 1) n)
  end.

Definition day_2024_10_28 : DayKey := JSDate.days_from_civil 2024 10 28.

(** 2024-10-28, 10:00 in Berlin (09:00 UTC). *)
Definition berlinMorning : Z :=
  JSDate.parseKey day_2024_10_28 + 9 * JSDate.msPerHour.

(** The page as loaded that morning: the initial state, rendered. *)
Definition loadedState : State :=
  renderHabitList berlinMorning (createInitialState berlinMorning).

(** The three default habits, with the marks [marks] for 2024-10-28. *)
Definition markedState (marks : gmap string bool) (p : Z) : State :=
  {| habits := habits (createInitialState berlinMorning);
     completions := {[ day_2024_10_28 := marks ]};
     points := p |}.

(** The habit "water" done on 2024-10-26, 27 and 28 and on no other day. *)
Definition threeDayState : State :=
  {| habits := habits (createInitialState berlinMorning);
     completions := doneDays "water" (day_2024_10_28 - 2) 3;
     points := 15 |}.

(** * Properties *)

(** ** Own ids *)

(** At an id that names no inherited property the finite map reads and
    writes as the source's object does. *)
Lemma ownId_read (day : gmap string bool) (h : string) :
  ownId h → readTruthy day h = Boolean (day !! h).
Proof.
  intros Hown. unfold readTruthy.
  destruct (day !! h); [done|]. simpl. by apply bool_decide_eq_false.
Qed.

Lemma ownId_assign (day : gmap string bool) (h : string) (v : bool) :
  ownId h → assignProperty day h v = <[h := v]> day.
Proof.
  intros Hown. unfold assignProperty.
  rewrite decide_False; [done|]. intros [-> _]. apply Hown.
  unfold inheritedNames. rewrite !elem_of_cons. tauto.
Qed.

(** ** The ledger under [ensureDateEntry] and [toggleHabitForToday] *)

Lemma ensureDateEntry_completions d st :
  completions (ensureDateEntry d st)
  = <[d := default ∅ (completions st !! d)]> (completions st).
Proof.
  unfold ensureDateEntry.
  destruct (completions st !! d) as [day|] eqn:E; simpl.
  - by rewrite insert_id.
  - done.
Qed.

Lemma ensureDateEntry_points d st : points (ensureDateEntry d st) = points st.
Proof. unfold ensureDateEntry. by destruct (completions st !! d). Qed.

Lemma ensureDateEntry_habits d st : habits (ensureDateEntry d st) = habits st.
Proof. unfold ensureDateEntry. by destruct (completions st !! d). Qed.

Lemma ensureDateEntry_present d st :
  is_Some (completions st !! d) → ensureDateEntry d st = st.
Proof. intros [day E]. unfold ensureDateEntry. by rewrite E. Qed.

Lemma ensureDateEntry_isDone d st h d' :
  isHabitDoneOnDate (ensureDateEntry d st) h d' = isHabitDoneOnDate st h d'.
Proof.
  unfold isHabitDoneOnDate. rewrite ensureDateEntry_completions.
  destruct (decide (d = d')) as [->|Hne].
  - rewrite lookup_insert_eq. by destruct (completions st !! d').
  - by rewrite lookup_insert_ne.
Qed.

Lemma isHabitDoneOnDate_lookup st h d :
  isHabitDoneOnDate st h d = Boolean (default ∅ (completions st !! d) !! h).
Proof. unfold isHabitDoneOnDate. by destruct (completions st !! d). Qed.

Lemma toggle_completions now h v st :
  completions (toggleHabitForToday now h v st)
  = <[getTodayKey now := <[h := v]> (default ∅ (completions st !! getTodayKey now))]>
      (completions st).
Proof.
  unfold toggleHabitForToday. set (d := getTodayKey now).
  assert (completions (ensureDateEntry d st) !! d
          = Some (default ∅ (completions st !! d))) as E.
  { by rewrite ensureDateEntry_completions, lookup_insert_eq. }
  rewrite E. simpl.
  assert (∀ p, <[d := p]> (completions (ensureDateEntry d st))
               = <[d := p]> (completions st)) as Hins.
  { intros p. by rewrite ensureDateEntry_completions, insert_insert_eq. }
  repeat case_match; simpl; apply Hins.
Qed.

Lemma toggle_habits now h v st :
  habits (toggleHabitForToday now h v st) = habits st.
Proof.
  unfold toggleHabitForToday.
  repeat case_match; simpl; apply ensureDateEntry_habits.
Qed.

Lemma toggle_points now h v st :
  points (toggleHabitForToday now h v st)
  = let was := isHabitDoneOnDate st h (getTodayKey now) in
    if negb was && v then points st + 5
    else if was && negb v then Z.max 0 (points st - 5)
    else points st.
Proof.
  unfold toggleHabitForToday. set (d := getTodayKey now).
  assert (completions (ensureDateEntry d st) !! d
          = Some (default ∅ (completions st !! d))) as E.
  { by rewrite ensureDateEntry_completions, lookup_insert_eq. }
  rewrite E. simpl. rewrite isHabitDoneOnDate_lookup.
  repeat case_match; simpl; by rewrite ?ensureDateEntry_points.
Qed.

Lemma toggle_isDone now h v st h' d' :
  isHabitDoneOnDate (toggleHabitForToday now h v st) h' d'
  = if decide (d' = getTodayKey now ∧ h' = h) then v
    else isHabitDoneOnDate st h' d'.
Proof.
  rewrite !isHabitDoneOnDate_lookup, toggle_completions.
  destruct (decide (getTodayKey now = d')) as [<-|Hd].
  - rewrite lookup_insert_eq. simpl.
    destruct (decide (h = h')) as [<-|Hh].
    + rewrite lookup_insert_eq. by rewrite decide_True.
    + rewrite lookup_insert_ne by done. rewrite decide_False; [done | intros [? ?]; congruence].
  - rewrite lookup_insert_ne by done. rewrite decide_False; [done | intros [? ?]; congruence].
Qed.

(** ** Clearing today *)

Lemma countTrue_empty : countTrue ∅ = 0.
Proof. unfold countTrue. by rewrite map_filter_empty, map_size_empty. Qed.

Lemma countTrue_insert (day : gmap string bool) (i : string) (x : bool) :
  day !! i = None →
  countTrue (<[i := x]> day) = if x then countTrue day + 1 else countTrue day.
Proof.
  intros Hi. unfold countTrue. rewrite map_filter_insert. simpl.
  destruct x.
  - rewrite decide_True by done.
    rewrite map_size_insert_None; [lia|].
    apply map_lookup_filter_None. left. done.
  - rewrite decide_False by done. by rewrite delete_id.
Qed.

Lemma countTrue_nonneg day : 0 ≤ countTrue day.
Proof. unfold countTrue. lia. Qed.

Lemma countTrue_zero (day : gmap string bool) h :
  countTrue day = 0 → Boolean (day !! h) = false.
Proof.
  unfold countTrue. intros Hz.
  assert (filter (λ kv : string * bool, kv.2 = true) day = ∅) as He.
  { apply map_size_empty_inv. lia. }
  destruct (day !! h) as [[|]|] eqn:E; try done.
  assert (filter (λ kv : string * bool, kv.2 = true) day !! h = Some true) as Hl.
  { apply map_lookup_filter_Some. done. }
  rewrite He, lookup_empty in Hl. done.
Qed.

(** The loop of the clear-today handler takes five points, floored at
    zero, once for each habit id that is mapped to [true]. *)
Lemma clearFold_closed (p : Z) (day : gmap string bool) :
  map_fold clearStep p day
  = if countTrue day =? 0 then p else Z.max 0 (p - 5 * countTrue day).
Proof.
  apply (map_fold_weak_ind
           (λ r m, r = if countTrue m =? 0 then p else Z.max 0 (p - 5 * countTrue m))).
  - by rewrite countTrue_empty.
  - intros i x m r Hi ->. rewrite countTrue_insert by done.
    pose proof (countTrue_nonneg m) as Hk. unfold clearStep.
    destruct x; [|done].
    destruct (Z.eqb_spec (countTrue m) 0) as [E|E];
      destruct (Z.eqb_spec (countTrue m + 1) 0); lia.
Qed.

Lemma clearFold_nonneg (p : Z) (day : gmap string bool) :
  0 ≤ p → 0 ≤ map_fold clearStep p day.
Proof. intros Hp. rewrite clearFold_closed. case_match; lia. Qed.

Lemma clearToday_absent now st :
  completions st !! getTodayKey now = None → clearToday now st = st.
Proof. intros E. unfold clearToday. by rewrite E. Qed.

Lemma clearToday_present now st day :
  completions st !! getTodayKey now = Some day →
  clearToday now st
  = {| habits := habits st;
       completions := <[getTodayKey now := ∅]> (completions st);
       points := map_fold clearStep (points st) day |}.
Proof.
  intros E. unfold clearToday. rewrite E. unfold renderHabitList.
  rewrite ensureDateEntry_present; [done|].
  simpl. rewrite lookup_insert_eq. by eexists.
Qed.

(** ** Day quality *)

Lemma countDone_fold (st : State) (d : Z) (day : gmap string bool) (hs : list Habit.t) acc :
  completions st !! d = Some day →
  fold_left (countDone day) hs acc
  = acc + Z.of_nat (length (filter (λ h, isHabitDoneOnDate st (Habit.id h) d = true) hs)).
Proof.
  intros E. revert acc. induction hs as [|h hs IH]; intros acc; simpl.
  - lia.
  - rewrite IH. unfold countDone. rewrite filter_cons.
    assert (isHabitDoneOnDate st (Habit.id h) d = Boolean (day !! Habit.id h)) as ->.
    { unfold isHabitDoneOnDate. by rewrite E. }
    destruct (Boolean (day !! Habit.id h)) eqn:B.
    + rewrite decide_True by done. simpl length. lia.
    + rewrite decide_False by done. lia.
Qed.

Lemma quality_present (st : State) (d : Z) (day : gmap string bool) :
  completions st !! d = Some day →
  habits st ≠ [] →
  getDateCompletionQuality st d
  = if decide (spec_doneCount st d = 0%nat) then "missed"
    else if decide (spec_doneCount st d = length (habits st)) then "done"
    else "partial".
Proof.
  intros E Hne. unfold getDateCompletionQuality. rewrite E.
  assert (length (habits st) ≠ 0%nat) as Hlen.
  { destruct (habits st); [done | simpl; lia]. }
  destruct (Z.eqb_spec (Z.of_nat (length (habits st))) 0) as [?|_]; [lia|].
  rewrite (countDone_fold st d day) by done. fold (spec_doneCount st d).
  destruct (Z.eqb_spec (0 + Z.of_nat (spec_doneCount st d)) 0).
  - rewrite decide_True by lia. done.
  - rewrite decide_False by lia.
    destruct (Z.eqb_spec (0 + Z.of_nat (spec_doneCount st d))
                (Z.of_nat (length (habits st)))).
    + rewrite decide_True by lia. done.
    + rewrite decide_False by lia. done.
Qed.

Lemma spec_doneCount_none (st : State) (d : Z) :
  (∀ h, h ∈ habits st → isHabitDoneOnDate st (Habit.id h) d = false) →
  spec_doneCount st d = 0%nat.
Proof.
  intros Hall. unfold spec_doneCount.
  induction (habits st) as [|h hs IH]; [done|].
  rewrite filter_cons. rewrite decide_False.
  - apply IH. intros h' Hin. apply Hall. by right.
  - rewrite Hall; [done | by left].
Qed.

(** C7.  The quality of day [d] is [unrecorded] when [d] has no ledger
    entry or the registry is empty; otherwise, with [doneCount] the
    number of habits of the whole registry that are done on [d], it is
    "missed" when [doneCount] is 0, "done" when [doneCount] is the number
    of habits, and "partial" in every other case. *)
Theorem dayQuality_classification (st : State) (d : Z) :
  let q := getDateCompletionQuality st d in
  let doneCount := spec_doneCount st d in
  (completions st !! d = None ∨ habits st = [] → q = unrecorded)
  ∧ (is_Some (completions st !! d) ∧ habits st ≠ [] →
       (doneCount = 0%nat → q = "missed")
       ∧ (doneCount = length (habits st) → q = "done")
       ∧ (doneCount ≠ 0%nat ∧ doneCount ≠ length (habits st) → q = "partial")).
Proof.
  intros q doneCount. subst q doneCount. split.
  - intros [E|E]; unfold getDateCompletionQuality.
    + by rewrite E.
    + rewrite E. simpl. by destruct (completions st !! d).
  - intros [[day E] Hne]. rewrite (quality_present st d day) by done.
    assert (length (habits st) ≠ 0%nat) as Hlen.
    { destruct (habits st); [done | simpl; lia]. }
    repeat split.
    + intros H0. by rewrite decide_True.
    + intros Hall. rewrite decide_False by lia. by rewrite decide_True.
    + intros [H0 Hall]. by rewrite !decide_False.
Qed.

Lemma dayQuality_classification_witness :
  let today := getTodayKey berlinMorning in
  let st0 := markedState ∅ 0 in
  let st2 := markedState {[ "water" := true; "move" := true ]} 10 in
  let st3 := markedState {[ "water" := true; "move" := true; "read" := true ]} 15 in
  getDateCompletionQuality st0 (today - 1) = unrecorded
  ∧ getDateCompletionQuality st0 today = "missed"
  ∧ getDateCompletionQuality st2 today = "partial"
  ∧ getDateCompletionQuality st3 today = "done".
Proof.
  intros today st0 st2 st3.
  assert (∀ marks p, is_Some (completions (markedState marks p) !! today)
                     ∧ habits (markedState marks p) ≠ []) as Hpre.
  { intros marks p. split; [|discriminate].
    exists marks. apply lookup_singleton_eq. }
  split_and!.
  - apply (dayQuality_classification st0 (today - 1)).
    left. vm_compute. reflexivity.
  - apply (dayQuality_classification st0 today); [apply Hpre|].
    vm_compute. reflexivity.
  - apply (dayQuality_classification st2 today); [apply Hpre|].
    split; vm_compute; discriminate.
  - apply (dayQuality_classification st3 today); [apply Hpre|].
    vm_compute. reflexivity.
Defined.

(** ** The score of a ledger *)

Lemma totalDone_empty : totalDone ∅ = 0.
Proof. unfold totalDone. by rewrite map_fold_empty. Qed.

Lemma totalDone_insert_fresh (c : gmap Z (gmap string bool)) (d : Z) (day : gmap string bool) :
  c !! d = None → totalDone (<[d := day]> c) = countTrue day + totalDone c.
Proof.
  intros Hd. unfold totalDone.
  rewrite map_fold_insert_L; [done | intros; lia | done].
Qed.

Lemma totalDone_nonneg (c : gmap Z (gmap string bool)) : 0 ≤ totalDone c.
Proof.
  unfold totalDone.
  apply (map_fold_weak_ind (λ r _, 0 ≤ r)); [lia|].
  intros d day m r _ Hr. pose proof (countTrue_nonneg day). lia.
Qed.

Lemma totalDone_delete (c : gmap Z (gmap string bool)) (d : Z) (day : gmap string bool) :
  c !! d = Some day → totalDone c = countTrue day + totalDone (delete d c).
Proof.
  intros Hd. rewrite <- (insert_delete_id c d day Hd) at 1.
  apply totalDone_insert_fresh, lookup_delete_eq.
Qed.

Lemma totalDone_insert (c : gmap Z (gmap string bool)) (d : Z) (day : gmap string bool) :
  totalDone (<[d := day]> c)
  = totalDone c - countTrue (default ∅ (c !! d)) + countTrue day.
Proof.
  destruct (c !! d) as [old|] eqn:Hd; simpl.
  - rewrite (totalDone_delete c d old Hd), <- insert_delete_eq.
    rewrite totalDone_insert_fresh by apply lookup_delete_eq. lia.
  - rewrite totalDone_insert_fresh by done. rewrite countTrue_empty. lia.
Qed.

Lemma totalDone_ge (c : gmap Z (gmap string bool)) (d : Z) (day : gmap string bool) :
  c !! d = Some day → countTrue day ≤ totalDone c.
Proof.
  intros Hd. rewrite (totalDone_delete c d day Hd).
  pose proof (totalDone_nonneg (delete d c)). lia.
Qed.

Lemma countTrue_insert_any (day : gmap string bool) (h : string) (v : bool) :
  countTrue (<[h := v]> day)
  = countTrue day - (if Boolean (day !! h) then 1 else 0) + (if v then 1 else 0).
Proof.
  destruct (day !! h) as [old|] eqn:Hh; simpl.
  - rewrite <- (insert_delete_id day h old Hh) at 2. rewrite <- insert_delete_eq.
    rewrite !countTrue_insert by apply lookup_delete_eq.
    destruct old, v; lia.
  - rewrite countTrue_insert by done. destruct v; lia.
Qed.

Lemma ensureDateEntry_matches d st :
  pointsMatchLedger st → pointsMatchLedger (ensureDateEntry d st).
Proof.
  unfold pointsMatchLedger.
  rewrite ensureDateEntry_points, ensureDateEntry_completions, totalDone_insert.
  lia.
Qed.

(** In a state whose points are those of its ledger, the floor at zero
    is never reached: checking or unchecking moves the points by the
    delta of the transition. *)
Lemma toggle_exact now h v st :
  pointsMatchLedger st →
  points (toggleHabitForToday now h v st)
  = points st + spec_pointsDelta (isHabitDoneOnDate st h (getTodayKey now)) v
  ∧ pointsMatchLedger (toggleHabitForToday now h v st).
Proof.
  unfold pointsMatchLedger. intros Hm. set (d := getTodayKey now).
  rewrite toggle_points, toggle_completions, totalDone_insert, countTrue_insert_any.
  fold d. rewrite isHabitDoneOnDate_lookup. cbv zeta.
  set (day := default ∅ (completions st !! d)).
  assert (Boolean (day !! h) = true → 5 ≤ points st) as Hfive.
  { intros Hwas. rewrite Hm.
    assert (1 ≤ countTrue day) as Hone.
    { pose proof (countTrue_nonneg day).
      destruct (decide (countTrue day = 0)) as [Hz|]; [|lia].
      by rewrite (countTrue_zero day h Hz) in Hwas. }
    subst day. destruct (completions st !! d) as [day|] eqn:E; simpl in *.
    - pose proof (totalDone_ge _ _ _ E). lia.
    - rewrite countTrue_empty in Hone. lia. }
  unfold spec_pointsDelta.
  destruct (Boolean (day !! h)), v; simpl; lia.
Qed.

Lemma clearToday_exact now st :
  pointsMatchLedger st →
  points (clearToday now st)
  = points st - 5 * countTrue (default ∅ (completions st !! getTodayKey now))
  ∧ pointsMatchLedger (clearToday now st).
Proof.
  unfold pointsMatchLedger. intros Hm.
  destruct (completions st !! getTodayKey now) as [day|] eqn:E; simpl.
  - rewrite (clearToday_present now st day E). simpl.
    rewrite clearFold_closed, totalDone_insert, E, countTrue_empty. simpl.
    pose proof (totalDone_ge _ _ _ E). pose proof (countTrue_nonneg day).
    destruct (Z.eqb_spec (countTrue day) 0); lia.
  - rewrite clearToday_absent by done. rewrite countTrue_empty. lia.
Qed.

Lemma handle_matches e st : pointsMatchLedger st → pointsMatchLedger (handle e st).
Proof.
  intros Hm. destruct e; simpl.
  - apply ensureDateEntry_matches. by apply toggle_exact.
  - by apply clearToday_exact.
  - unfold addHabit. case_decide; [done|]. by apply ensureDateEntry_matches.
  - by apply ensureDateEntry_matches.
Qed.

(** From the initial state on, whatever the events, the points are five
    times the number of marks that are [true]. *)
Theorem points_match_ledger (now : Z) (es : list Event) :
  pointsMatchLedger (run es (createInitialState now)).
Proof.
  unfold run.
  assert (pointsMatchLedger (createInitialState now)) as Hinit.
  { unfold pointsMatchLedger. simpl. rewrite totalDone_empty. lia. }
  revert Hinit. generalize (createInitialState now).
  induction es as [|e es IH]; intros st Hm; simpl; [done|].
  apply IH. by apply handle_matches.
Qed.

(** ** Checking, unchecking and clearing: what happens to the score *)

(** C1.  [toggleHabitForToday(h, v)] at day [d = today], for an id [h]
    that names no inherited property and points that leave room for 5
    more below [2 ^ 53]: afterwards [isHabitDoneOnDate(h, d)] is [v]; the
    points are the old points with the delta of the transition applied,
    where the delta is [+5] when the habit was not done and [v] is true,
    [-5] when it was done and [v] is false, and [0] otherwise (marking a
    done habit done again awards nothing).  The change of the points is
    that delta itself wherever the floor at zero is not reached, which
    is so in every state whose points are those of its ledger. *)
Theorem toggle_postcondition (now : Z) (h : string) (v : bool) (st : State) :
  ownId h →
  0 ≤ points st ≤ maxExactInteger - 5 →
  let d := getTodayKey now in
  let was := isHabitDoneOnDate st h d in
  let st' := toggleHabitForToday now h v st in
  isHabitDoneOnDate st' h d = v
  ∧ points st' = spec_applyDelta (points st) (spec_pointsDelta was v)
  ∧ (0 ≤ points st + spec_pointsDelta was v ∨ pointsMatchLedger st →
     points st' = points st + spec_pointsDelta was v)
  ∧ (was = v → points st' = points st).
Proof.
  intros _ [Hp _] d was st'. subst st'. split_and!.
  - rewrite toggle_isDone. by rewrite decide_True.
  - rewrite toggle_points. fold d. fold was.
    unfold spec_applyDelta, spec_pointsDelta. destruct was, v; simpl; lia.
  - intros [Hfloor|Hm].
    + rewrite toggle_points. fold d. fold was. revert Hfloor.
      unfold spec_pointsDelta. destruct was, v; simpl; lia.
    + by apply toggle_exact.
  - intros Hsame. rewrite toggle_points. fold d. fold was.
    rewrite Hsame. by destruct v.
Qed.

Lemma toggle_postcondition_witness :
  let st := toggleHabitForToday 0 "water" true (createInitialState 0) in
  ownId "water"
  ∧ 0 ≤ points st ≤ maxExactInteger - 5
  ∧ isHabitDoneOnDate (toggleHabitForToday 0 "water" false st) "water" (getTodayKey 0) = false
  ∧ points (toggleHabitForToday 0 "water" false st) = spec_applyDelta 5 (-5).
Proof.
  intros st.
  assert (ownId "water") as Hown by solve_ownId.
  assert (0 ≤ points st ≤ maxExactInteger - 5) as Hp
    by (vm_compute; split; discriminate).
  split; [exact Hown|]. split; [exact Hp|].
  destruct (toggle_postcondition 0 "water" false st Hown Hp) as (H1 & H2 & _).
  split; [exact H1 | exact H2].
Defined.

(** Setting the same value again, for an id that names no inherited
    property, changes nothing: not the ledger, and not the points
    (section 8 of the specification, idempotence). *)
Theorem toggle_again_is_noop (now : Z) (h : string) (v : bool) (st : State) :
  ownId h →
  let st' := toggleHabitForToday now h v st in
  toggleHabitForToday now h v st' = st'.
Proof.
  intros _ st'.
  assert (habits (toggleHabitForToday now h v st') = habits st') as Hh
    by apply toggle_habits.
  assert (completions (toggleHabitForToday now h v st') = completions st') as Hc.
  { rewrite toggle_completions. subst st'. rewrite toggle_completions.
    rewrite lookup_insert_eq. simpl. by rewrite !insert_insert_eq. }
  assert (points (toggleHabitForToday now h v st') = points st') as Hp.
  { rewrite toggle_points. cbv zeta.
    assert (isHabitDoneOnDate st' h (getTodayKey now) = v) as ->.
    { subst st'. rewrite toggle_isDone. by rewrite decide_True. }
    by destruct v. }
  destruct (toggleHabitForToday now h v st'), st'. simpl in *. by subst.
Qed.

Lemma toggle_again_is_noop_witness :
  let st' := toggleHabitForToday berlinMorning "water" true (markedState ∅ 0) in
  ownId "water"
  ∧ toggleHabitForToday berlinMorning "water" true st' = st'
  ∧ points st' = 5.
Proof.
  intros st'.
  assert (ownId "water") as Hown by solve_ownId.
  split; [exact Hown|].
  split; [exact (toggle_again_is_noop berlinMorning "water" true (markedState ∅ 0) Hown)|].
  subst st'. rewrite toggle_points. reflexivity.
Defined.

(** C3 (as the code has it).  Clearing today.  With no entry for today,
    and also with an empty one, the handler changes nothing at all.  With
    an entry, the entry stays in the ledger and is empty afterwards, and
    every other day is untouched.  The points, when they are not above
    [2 ^ 53], lose five, floored at zero, for each habit id the entry
    maps to [true]: they are the old points with the delta [-5 * k]
    applied, and the old points minus [5 * k] in every state whose points
    are those of its ledger.  The quality of the day is then "missed",
    not [unrecorded], when the registry holds a habit and its ids name
    no inherited property.  When the entry maps no id to [true] the
    points are unchanged, and so is every answer of [isHabitDoneOnDate]
    about an id that names no inherited property; the entry itself is
    still replaced by the empty one. *)
Theorem clearToday_postcondition (now : Z) (st : State) :
  let d := getTodayKey now in
  let st' := clearToday now st in
  (completions st !! d = None ∨ completions st !! d = Some ∅ → st' = st)
  ∧ (∀ day, completions st !! d = Some day →
       let k := countTrue day in
       completions st' = <[d := ∅]> (completions st)
       ∧ habits st' = habits st
       ∧ (points st ≤ maxExactInteger →
          points st' = (if k =? 0 then points st else Z.max 0 (points st - 5 * k))
          ∧ (0 ≤ points st → points st' = spec_applyDelta (points st) (- 5 * k))
          ∧ (pointsMatchLedger st → points st' = points st - 5 * k))
       ∧ (habits st ≠ [] ∧ ownIds (habits st) →
          getDateCompletionQuality st' d = "missed")
       ∧ (k = 0 →
          points st' = points st
          ∧ ∀ h d', ownId h →
              isHabitDoneOnDate st' h d' = isHabitDoneOnDate st h d')).
Proof.
  intros d st'. subst st'. split.
  - intros [E|E]; [by apply clearToday_absent|].
    rewrite (clearToday_present now st ∅ E). fold d.
    rewrite map_fold_empty, insert_id by done. by destruct st.
  - intros day E k.
    pose proof (clearToday_exact now st) as Hexact. fold d in Hexact.
    rewrite E in Hexact. simpl in Hexact. fold k in Hexact. revert Hexact.
    rewrite (clearToday_present now st day E). simpl.
    fold d. rewrite clearFold_closed. fold k. intros Hexact.
    pose proof (countTrue_nonneg day) as Hk. fold k in Hk.
    split; [done|]. split; [done|]. split; [|split].
    + intros _. split; [done|]. split.
      * intros Hp. unfold spec_applyDelta.
        destruct (Z.eqb_spec k 0); lia.
      * intros Hm. by apply Hexact.
    + intros [Hne _].
      rewrite (quality_present _ d ∅); simpl; [|by rewrite lookup_insert_eq|done].
      rewrite decide_True; [done|].
      apply spec_doneCount_none. intros h _.
      unfold isHabitDoneOnDate. simpl. by rewrite lookup_insert_eq.
    + intros Hz. rewrite Hz. split; [done|].
      intros h d' _. unfold isHabitDoneOnDate. simpl.
      destruct (decide (d = d')) as [<-|Hd].
      * rewrite lookup_insert_eq, E, lookup_empty. simpl.
        symmetry. by apply countTrue_zero.
      * by rewrite lookup_insert_ne.
Qed.

Lemma clearToday_postcondition_witness :
  let today := getTodayKey berlinMorning in
  let st := markedState {[ "water" := true; "move" := false ]} 5 in
  let st' := clearToday berlinMorning st in
  isHabitDoneOnDate st "water" today = true
  ∧ isHabitDoneOnDate st "move" today = false
  ∧ points st ≤ maxExactInteger
  ∧ ownIds (habits st)
  ∧ points st' = spec_applyDelta 5 (-5)
  ∧ completions st' !! today = Some ∅
  ∧ getDateCompletionQuality st' today = "missed".
Proof.
  intros today st st'.
  assert (completions st !! today = Some {[ "water" := true; "move" := false ]})
    as E by apply lookup_singleton_eq.
  assert (points st ≤ maxExactInteger) as Hrange by (vm_compute; discriminate).
  assert (ownIds (habits st)) as Hown by solve_ownIds.
  destruct (clearToday_postcondition berlinMorning st) as [_ H].
  destruct (H _ E) as (Hc & _ & Hpts & Hq & _).
  destruct (Hpts Hrange) as (_ & Hp & _).
  split_and!.
  - vm_compute. reflexivity.
  - vm_compute. reflexivity.
  - exact Hrange.
  - exact Hown.
  - apply Hp. simpl. lia.
  - subst st'. rewrite Hc. apply lookup_insert_eq.
  - apply Hq. split; [simpl; discriminate | exact Hown].
Defined.

(** C3, as the claim words it, fails for an entry that holds a value but
    no [true] one: the points delta is 0, but the handler is not a no-op
    on the ledger, it replaces the entry by the empty one. *)
Lemma clearToday_drops_false_marks :
  let st := markedState {[ "water" := false ]} 0 in
  completions st !! getTodayKey berlinMorning = Some {[ "water" := false ]}
  ∧ countTrue {[ "water" := false ]} = 0
  ∧ points (clearToday berlinMorning st) = points st
  ∧ completions (clearToday berlinMorning st) !! getTodayKey berlinMorning = Some ∅
  ∧ completions (clearToday berlinMorning st) ≠ completions st.
Proof.
  cbv zeta.
  assert (completions (markedState {[ "water" := false ]} 0)
            !! getTodayKey berlinMorning
          = Some {[ "water" := false ]}) as E by apply lookup_singleton_eq.
  assert (completions (clearToday berlinMorning (markedState {[ "water" := false ]} 0))
            !! getTodayKey berlinMorning
          = Some ∅) as E'.
  { rewrite (clearToday_present _ _ _ E). simpl. apply lookup_insert_eq. }
  split_and!.
  - exact E.
  - vm_compute. reflexivity.
  - rewrite (clearToday_present _ _ _ E). vm_compute. reflexivity.
  - exact E'.
  - intros Heq. rewrite Heq, E in E'. apply (inj Some) in E'.
    apply (f_equal (λ m : gmap string bool, m !! "water")) in E'.
    rewrite lookup_singleton_eq, lookup_empty in E'. discriminate E'.
Qed.

(** ** The score never goes below zero *)

Lemma renderHabitList_points now st : points (renderHabitList now st) = points st.
Proof. apply ensureDateEntry_points. Qed.

Lemma toggle_nonneg now h v st :
  0 ≤ points st → 0 ≤ points (toggleHabitForToday now h v st).
Proof. intros Hp. rewrite toggle_points. simpl. repeat case_match; lia. Qed.

Lemma clearToday_nonneg now st :
  0 ≤ points st → 0 ≤ points (clearToday now st).
Proof.
  intros Hp. destruct (completions st !! getTodayKey now) as [day|] eqn:E.
  - rewrite (clearToday_present now st day E). simpl. by apply clearFold_nonneg.
  - by rewrite clearToday_absent.
Qed.

Lemma addHabit_points now input st : points (addHabit now input st) = points st.
Proof.
  unfold addHabit. case_decide; [done|]. by rewrite renderHabitList_points.
Qed.

Lemma handle_nonneg e st : 0 ≤ points st → 0 ≤ points (handle e st).
Proof.
  intros Hp. destruct e; simpl.
  - unfold onCheckboxChange. rewrite renderHabitList_points. by apply toggle_nonneg.
  - by apply clearToday_nonneg.
  - by rewrite addHabit_points.
  - by rewrite renderHabitList_points.
Qed.

(** C2.  From a state with [points >= 0], the points are [>= 0] after
    every event of every sequence of events: checking or unchecking a
    habit ([toggleHabitForToday]), clearing today, and also adding a
    habit and rendering. *)
Theorem points_never_negative (es : list Event) (st : State) :
  0 ≤ points st → Forall (λ s, 0 ≤ points s) (trace es st).
Proof.
  revert st. induction es as [|e es IH]; intros st Hp; simpl.
  - constructor.
  - constructor.
    + by apply handle_nonneg.
    + apply IH. by apply handle_nonneg.
Qed.

Lemma points_never_negative_witness :
  let st := set_points 3 (createInitialState 0) in
  let es := [Check 0 "water" true; Check 0 "water" false; Check 0 "move" true;
             ClearToday 0; ClearToday 0] in
  0 ≤ points st
  ∧ Forall (λ s, 0 ≤ points s) (trace es st)
  ∧ map points (trace es st) = [8; 3; 8; 3; 3].
Proof.
  intros st es.
  assert (0 ≤ points st) as Hp by (simpl; lia).
  split; [exact Hp|].
  split; [exact (points_never_negative es st Hp)|].
  vm_compute. reflexivity.
Defined.

(** ** Rendering creates today's entry *)

Lemma quality_missed (st : State) (d : Z) :
  is_Some (completions st !! d) →
  habits st ≠ [] →
  (∀ h, h ∈ habits st → isHabitDoneOnDate st (Habit.id h) d = false) →
  getDateCompletionQuality st d = "missed".
Proof.
  intros [day E] Hne Hall. rewrite (quality_present st d day) by done.
  rewrite decide_True; [done|]. by apply spec_doneCount_none.
Qed.

Lemma spec_doneCount_some (st : State) (d : Z) (h : Habit.t) :
  h ∈ habits st → isHabitDoneOnDate st (Habit.id h) d = true →
  spec_doneCount st d ≠ 0%nat.
Proof.
  intros Hin Hdone. unfold spec_doneCount.
  assert (h ∈ filter (λ h, isHabitDoneOnDate st (Habit.id h) d = true) (habits st))
    as Hf by (by apply list_elem_of_filter).
  destruct (filter _ (habits st)); [by apply elem_of_nil in Hf | done].
Qed.

(** C10.  [renderHabitList] leaves an entry for today in the ledger: an
    empty one when there was none.  So with a habit in the registry, and
    no id in it that names an inherited property, a day that had no entry
    (quality [unrecorded]) has quality "missed" after the list was
    rendered, and keeps it as long as no habit of the registry is done
    today; checking a habit of the registry ends it. *)
Theorem render_materializes_today (now : Z) (st : State) :
  let d := getTodayKey now in
  let st' := renderHabitList now st in
  is_Some (completions st' !! d)
  ∧ (completions st !! d = None →
     getDateCompletionQuality st d = unrecorded
     ∧ completions st' = <[d := ∅]> (completions st))
  ∧ (habits st ≠ [] ∧ ownIds (habits st) ∧
     (∀ h, h ∈ habits st → isHabitDoneOnDate st (Habit.id h) d = false) →
     getDateCompletionQuality st' d = "missed")
  ∧ (∀ h, h ∈ habits st →
     getDateCompletionQuality (toggleHabitForToday now (Habit.id h) true st') d
     ≠ "missed").
Proof.
  intros d st'. subst st'. unfold renderHabitList. fold d.
  assert (is_Some (completions (ensureDateEntry d st) !! d)) as Hsome.
  { rewrite ensureDateEntry_completions, lookup_insert_eq. by eexists. }
  split_and!.
  - exact Hsome.
  - intros E. split.
    + unfold getDateCompletionQuality. by rewrite E.
    + by rewrite ensureDateEntry_completions, E.
  - intros (Hne & _ & Hall). apply quality_missed.
    + exact Hsome.
    + by rewrite ensureDateEntry_habits.
    + intros h Hin. rewrite ensureDateEntry_habits in Hin.
      rewrite ensureDateEntry_isDone. by apply Hall.
  - intros h Hin.
    set (st2 := toggleHabitForToday now (Habit.id h) true (ensureDateEntry d st)).
    assert (habits st2 = habits st) as Hhabits.
    { subst st2. by rewrite toggle_habits, ensureDateEntry_habits. }
    assert (is_Some (completions st2 !! d)) as [day E].
    { subst st2. rewrite toggle_completions. fold d.
      rewrite lookup_insert_eq. by eexists. }
    rewrite (quality_present st2 d day E).
    + rewrite decide_False.
      * case_decide; discriminate.
      * apply (spec_doneCount_some st2 d h); [by rewrite Hhabits|].
        subst st2. rewrite toggle_isDone. fold d. by rewrite decide_True.
    + rewrite Hhabits. intros Hnil. rewrite Hnil in Hin. by apply elem_of_nil in Hin.
Qed.

Lemma render_materializes_today_witness :
  let st := createInitialState berlinMorning in
  let today := getTodayKey berlinMorning in
  ownIds (habits st)
  ∧ getDateCompletionQuality st today = unrecorded
  ∧ getDateCompletionQuality (renderHabitList berlinMorning st) today = "missed".
Proof.
  intros st today.
  assert (ownIds (habits st)) as Hown by solve_ownIds.
  destruct (render_materializes_today berlinMorning st) as (_ & Hbefore & Hafter & _).
  split; [exact Hown|]. split.
  - apply Hbefore. apply lookup_empty.
  - apply Hafter. split; [simpl; discriminate|]. split; [exact Hown|].
    intros h _. unfold isHabitDoneOnDate. simpl. by rewrite lookup_empty.
Defined.

(** ** The calendar of [Date] *)

Example isoKey_samples :
  JSDate.isoKey 0 = "1970-01-01"
  ∧ JSDate.isoKey (-1) = "1969-12-31"
  ∧ JSDate.isoKey 19782 = "2024-02-29"
  ∧ JSDate.isoKey day_2024_10_28 = "2024-10-28"
  ∧ JSDate.isoKey (JSDate.Day JSDate.cestEnd2024) = "2024-10-27"
  ∧ JSDate.cestEnd2024 = 1729990800000.
Proof. split_and!; vm_compute; reflexivity. Qed.

(** Every day of an era of 146097 days is read back from its calendar
    fields. *)
Lemma doe_of_civil_of_doe (doe yoe m d : Z) :
  0 ≤ doe < 146097 →
  JSDate.civil_of_doe doe = (yoe, m, d) →
  0 ≤ yoe < 400 ∧ (1 ≤ m ≤ 12 ∧ 1 ≤ d ≤ 31) ∧ JSDate.doe_of_civil yoe m d = doe.
Proof.
  intros Hdoe. unfold JSDate.civil_of_doe, JSDate.doe_of_civil.
  set (y := (doe - doe / 1460 + doe / 36524 - doe / 146096) / 365).
  set (doy := doe - (365 * y + y / 4 - y / 100)).
  set (mp := (5 * doy + 2) / 153).
  assert (0 ≤ y < 400 ∧ 0 ≤ doy ≤ 366) as [Hy Hdoy].
  { subst doy y. Z.div_mod_to_equations. lia. }
  assert (0 ≤ mp ≤ 11) as Hmp.
  { subst mp. Z.div_mod_to_equations. lia. }
  assert (1 ≤ doy - (153 * mp + 2) / 5 + 1 ≤ 31) as Hd.
  { subst mp. Z.div_mod_to_equations. lia. }
  intros [= <- <- <-]. split; [done|].
  destruct (Z.ltb_spec mp 10).
  - split; [lia|]. destruct (Z.ltb_spec 2 (mp + 3)); [|lia].
    replace (mp + 3 - 3) with mp by lia. subst doy. lia.
  - split; [lia|]. destruct (Z.ltb_spec 2 (mp - 9)); [lia|].
    replace (mp - 9 + 9) with mp by lia. subst doy. lia.
Qed.

Lemma days_from_civil_from_days (z y m d : Z) :
  JSDate.civil_from_days z = (y, m, d) →
  (1 ≤ m ≤ 12 ∧ 1 ≤ d ≤ 31) ∧ JSDate.days_from_civil y m d = z.
Proof.
  unfold JSDate.civil_from_days, JSDate.days_from_civil.
  set (era := (z + 719468) / 146097).
  set (doe := z + 719468 - era * 146097).
  assert (0 ≤ doe < 146097) as Hdoe.
  { subst doe era. pose proof (Z.div_mod (z + 719468) 146097).
    pose proof (Z.mod_pos_bound (z + 719468) 146097). lia. }
  destruct (JSDate.civil_of_doe doe) as [[yoe m'] d'] eqn:E.
  apply doe_of_civil_of_doe in E as (Hy & Hm & Hback); [|done].
  intros [= <- <- <-].
  split; [done|].
  assert ((if m' <=? 2
           then (if m' <=? 2 then yoe + era * 400 + 1 else yoe + era * 400) - 1
           else (if m' <=? 2 then yoe + era * 400 + 1 else yoe + era * 400))
          = yoe + era * 400) as ->.
  { destruct (m' <=? 2); lia. }
  assert ((yoe + era * 400) / 400 = era) as ->.
  { rewrite Z.div_add by lia. rewrite Z.div_small by lia. lia. }
  replace (yoe + era * 400 - era * 400) with yoe by lia.
  subst doe. lia.
Qed.

Lemma days_from_civil_shift (y m d k : Z) :
  JSDate.days_from_civil y m (d + k) = JSDate.days_from_civil y m d + k.
Proof. unfold JSDate.days_from_civil, JSDate.doe_of_civil. lia. Qed.

(** [MakeDay] on the fields of a time value, with the day of the month
    moved by [k], is the day of the time value moved by [k]: this is what
    makes [setDate(getDate() - i)] step over month and year ends. *)
Lemma MakeDay_fields (t k : Z) :
  JSDate.MakeDay (JSDate.YearFromTime t) (JSDate.MonthFromTime t)
    (JSDate.DateFromTime t + k)
  = JSDate.Day t + k.
Proof.
  unfold JSDate.MakeDay, JSDate.YearFromTime, JSDate.MonthFromTime, JSDate.DateFromTime.
  destruct (JSDate.civil_from_days (JSDate.Day t)) as [[y m] d] eqn:E. simpl.
  apply days_from_civil_from_days in E as [[Hm _] E].
  rewrite Z.div_small by lia. rewrite Z.mod_small by lia.
  replace (y + 0) with y by lia. replace (m - 1 + 1) with m by lia.
  pose proof (days_from_civil_shift y m 1 (d - 1)) as Hs.
  replace (1 + (d - 1)) with d in Hs by lia. lia.
Qed.

Lemma Day_TimeWithinDay (t : Z) :
  JSDate.MakeDate (JSDate.Day t) (JSDate.TimeWithinDay t) = t.
Proof.
  unfold JSDate.MakeDate, JSDate.Day, JSDate.TimeWithinDay, msPerDay.
  pose proof (Z.div_mod t 86400000). lia.
Qed.

(** On every host, [d.setDate(d.getDate() - i)] moves the local time of
    [d] back by [i] days of 24 hours and reads the result as a wall-clock
    time. *)
Lemma setDate_getDate (tz : JSDate.TimeZone) (t i : Z) :
  JSDate.setDate tz t (JSDate.getDate tz t - i)
  = JSDate.UTC tz (JSDate.LocalTime tz t - i * msPerDay).
Proof.
  unfold JSDate.setDate, JSDate.getDate. f_equal.
  replace (JSDate.DateFromTime (JSDate.LocalTime tz t) - i)
    with (JSDate.DateFromTime (JSDate.LocalTime tz t) + - i) by lia.
  rewrite MakeDay_fields.
  pose proof (Day_TimeWithinDay (JSDate.LocalTime tz t)) as H.
  unfold JSDate.MakeDate in *. lia.
Qed.

(** Without clock changes that is [i] days before [d]. *)
Lemma setDate_fixedZone (offset t i : Z) :
  JSDate.setDate (JSDate.fixedZone offset) t
    (JSDate.getDate (JSDate.fixedZone offset) t - i)
  = t - i * msPerDay.
Proof.
  rewrite setDate_getDate.
  unfold JSDate.UTC, JSDate.LocalTime, JSDate.fixedZone. lia.
Qed.

Lemma isoDay_parseKey (k i : Z) :
  JSDate.isoDay (JSDate.parseKey k - i * msPerDay) = k - i.
Proof.
  unfold JSDate.isoDay, JSDate.parseKey, JSDate.Day, msPerDay.
  replace (k * 86400000 - i * 86400000) with ((k - i) * 86400000) by lia.
  apply Z.div_mul. lia.
Qed.

Lemma digit_inj (a b : Z) : 0 ≤ a ≤ 9 → 0 ≤ b ≤ 9 → JSDate.digit a = JSDate.digit b → a = b.
Proof.
  intros Ha Hb H. unfold JSDate.digit in H.
  apply (f_equal Ascii.N_of_ascii) in H.
  rewrite !Ascii.N_ascii_embedding in H by lia. lia.
Qed.

(** Within the years 0000 to 9999 distinct days have distinct key texts:
    a ledger keyed by the day is the source's object keyed by the text. *)
Lemma isoKey_inj (k1 k2 : Z) :
  0 ≤ JSDate.isoYear k1 ≤ 9999 → 0 ≤ JSDate.isoYear k2 ≤ 9999 →
  JSDate.isoKey k1 = JSDate.isoKey k2 → k1 = k2.
Proof.
  unfold JSDate.isoYear, JSDate.isoKey.
  destruct (JSDate.civil_from_days k1) as [[y1 m1] d1] eqn:E1.
  destruct (JSDate.civil_from_days k2) as [[y2 m2] d2] eqn:E2.
  apply days_from_civil_from_days in E1 as [[Hm1 Hd1] <-].
  apply days_from_civil_from_days in E2 as [[Hm2 Hd2] <-].
  simpl. intros Hy1 Hy2.
  unfold JSDate.pad4, JSDate.pad2. cbv [String.append].
  intros [= Ha Hb Hc Hd He Hf Hg Hh].
  apply digit_inj in Ha, Hb, Hc, Hd, He, Hf, Hg, Hh;
    try (Z.div_mod_to_equations; lia).
  assert (y1 = y2) as -> by (Z.div_mod_to_equations; lia).
  assert (m1 = m2) as -> by (Z.div_mod_to_equations; lia).
  assert (d1 = d2) as -> by (Z.div_mod_to_equations; lia).
  done.
Qed.

(** ** The streak walk on a host without clock changes *)

Lemma streak_step_fixedZone (offset k : Z) :
  JSDate.setDate (JSDate.fixedZone offset) (JSDate.parseKey k)
    (JSDate.getDate (JSDate.fixedZone offset) (JSDate.parseKey k) - 1)
  = JSDate.parseKey (k - 1).
Proof. rewrite setDate_fixedZone. unfold JSDate.parseKey. lia. Qed.

Lemma isoDay_parseKey0 (k : Z) : JSDate.isoDay (JSDate.parseKey k) = k.
Proof.
  pose proof (isoDay_parseKey k 0) as H.
  replace (JSDate.parseKey k - 0 * msPerDay) with (JSDate.parseKey k) in H by lia.
  rewrite H. lia.
Qed.

Lemma getTodayKey_parseKey (k : Z) : getTodayKey (JSDate.parseKey k) = k.
Proof. apply isoDay_parseKey0. Qed.

Section FixedZone.

Variables (offset : Z) (st : State) (habitId : string).

(** What the loop returns counts the days done in a row. *)
Lemma streakLoop_counts (fuel : nat) (k acc n : Z) :
  streakLoop (JSDate.fixedZone offset) st habitId fuel (JSDate.parseKey k) acc
  = Some n →
  spec_streak st habitId k (n - acc) ∧ n - acc < Z.of_nat fuel.
Proof.
  revert k acc. induction fuel as [|fuel IH]; intros k acc; [done|].
  simpl. rewrite isoDay_parseKey0, streak_step_fixedZone.
  assert (isHabitDoneOnDate st habitId k = false → spec_streak st habitId k 0)
    as Hzero.
  { intros Hf. split_and!; [lia | intros; lia | by rewrite Z.sub_0_r]. }
  destruct (completions st !! k) as [day|] eqn:E.
  - destruct (Boolean (day !! habitId)) eqn:B.
    + intros Hrec. apply IH in Hrec as [(Hn & Hdone & Hstop) Hfuel].
      split; [|lia]. split_and!.
      * lia.
      * intros i Hi. destruct (decide (i = 0)) as [->|Hne].
        -- rewrite Z.sub_0_r. unfold isHabitDoneOnDate. by rewrite E.
        -- replace (k - i) with (k - 1 - (i - 1)) by lia. apply Hdone. lia.
      * replace (k - (n - acc)) with (k - 1 - (n - (acc + 1))) by lia. done.
    + intros [= <-]. rewrite Z.sub_diag. split; [|lia].
      apply Hzero. unfold isHabitDoneOnDate. by rewrite E.
  - intros [= <-]. rewrite Z.sub_diag. split; [|lia].
    apply Hzero. unfold isHabitDoneOnDate. by rewrite E.
Qed.

(** The loop reaches its [break]: every iteration that goes on has
    found one more entry of the ledger, on an earlier day. *)
Lemma streakLoop_ends (fuel : nat) (k acc : Z) :
  (size (filter (λ kv : Z * gmap string bool, (kv.1 ≤ k)%Z) (completions st)) < fuel)%nat →
  is_Some (streakLoop (JSDate.fixedZone offset) st habitId fuel (JSDate.parseKey k) acc).
Proof.
  revert k acc. induction fuel as [|fuel IH]; intros k acc Hsize; [lia|].
  simpl. rewrite isoDay_parseKey0, streak_step_fixedZone.
  destruct (completions st !! k) as [day|] eqn:E; [|by eexists].
  destruct (Boolean (day !! habitId)); [|by eexists].
  apply IH.
  set (F := λ j, filter (λ kv : Z * gmap string bool, kv.1 ≤ j) (completions st)).
  fold (F k) in Hsize. fold (F (k - 1)).
  assert (F k !! k = Some day) as Hk.
  { apply map_lookup_filter_Some. split; [done | simpl; lia]. }
  assert (F (k - 1) ⊆ delete k (F k)) as Hsub.
  { apply map_subseteq_spec. intros i x Hi.
    apply map_lookup_filter_Some in Hi as [Hi Hle]. simpl in Hle.
    rewrite lookup_delete_ne by lia.
    apply map_lookup_filter_Some. split; [done | simpl; lia]. }
  apply map_subseteq_size in Hsub.
  rewrite map_size_delete, Hk in Hsub.
  assert (size (F k) ≠ 0%nat) as Hpos.
  { intros Hz. apply map_size_empty_inv in Hz. by rewrite Hz in Hk. }
  lia.
Qed.

Lemma spec_streak_unique (k n n' : Z) :
  spec_streak st habitId k n → spec_streak st habitId k n' → n = n'.
Proof.
  intros (Hn & Hdone & Hstop) (Hn' & Hdone' & Hstop').
  destruct (Z.lt_trichotomy n n') as [Hlt|[->|Hlt]]; [|done|].
  - rewrite Hdone' in Hstop by lia. done.
  - rewrite Hdone in Hstop' by lia. done.
Qed.

(** [computeStreak] on a host without clock changes: it returns, after
    at most one iteration for each day entry of the ledger and one
    more, the number of days done in a row that end with today. *)
Lemma computeStreak_fixedZone (now : Z) :
  ∃ n : Z,
    spec_streak st habitId (getTodayKey now) n
    ∧ n ≤ Z.of_nat (size (completions st))
    ∧ ∀ fuel, (size (completions st) < fuel)%nat →
        computeStreak (JSDate.fixedZone offset) now st habitId fuel = Some n.
Proof.
  set (today := getTodayKey now).
  assert (∀ fuel, (size (completions st) < fuel)%nat →
            is_Some (streakLoop (JSDate.fixedZone offset) st habitId fuel
                       (JSDate.parseKey today) 0)) as Hends.
  { intros fuel Hfuel. apply streakLoop_ends.
    eapply Nat.le_lt_trans; [|exact Hfuel].
    apply map_subseteq_size, map_filter_subseteq. }
  destruct (Hends (S (size (completions st)))) as [n Hn]; [lia|].
  exists n. pose proof (streakLoop_counts _ _ _ _ Hn) as [Hspec Hlt].
  rewrite Z.sub_0_r in Hspec, Hlt. split_and!; [done | lia |].
  intros fuel Hfuel. destruct (Hends fuel Hfuel) as [n' Hn'].
  unfold computeStreak. fold today. rewrite Hn'. f_equal.
  pose proof (streakLoop_counts _ _ _ _ Hn') as [Hspec' _].
  rewrite Z.sub_0_r in Hspec'.
  by apply (spec_streak_unique today).
Qed.

End FixedZone.

Lemma doneDays_lookup (h : string) (n : nat) (first k : Z) :
  doneDays h first n !! k
  = if decide (first ≤ k < first + Z.of_nat n) then Some {[h := true]} else None.
Proof.
  revert first. induction n as [|n IH]; intros first; simpl.
  - rewrite lookup_empty. by rewrite decide_False by lia.
  - destruct (decide (first = k)) as [->|Hne].
    + rewrite lookup_insert_eq. by rewrite decide_True by lia.
    + rewrite lookup_insert_ne by done. rewrite IH.
      destruct (decide (first + 1 ≤ k < first + 1 + Z.of_nat n)).
      * by rewrite decide_True by lia.
      * by rewrite decide_False by lia.
Qed.

Lemma doneDays_size (h : string) (n : nat) (first : Z) :
  size (doneDays h first n) = n.
Proof.
  revert first. induction n as [|n IH]; intros first; simpl.
  - apply map_size_empty.
  - rewrite map_size_insert_None, IH; [done|].
    rewrite doneDays_lookup. by rewrite decide_False by lia.
Qed.

Lemma doneDays_streak (h : string) (n : nat) (hs : list Habit.t) (p : Z) :
  spec_streak (mkState hs (doneDays h 0 n) p) h (Z.of_nat n - 1) (Z.of_nat n).
Proof.
  unfold spec_streak, isHabitDoneOnDate. simpl. split_and!.
  - lia.
  - intros i Hi. rewrite doneDays_lookup, decide_True by lia.
    by rewrite lookup_singleton_eq.
  - rewrite doneDays_lookup. by rewrite decide_False by lia.
Qed.

(** A ledger of [n] days done in a row keeps the loop going for [n + 1]
    iterations. *)
Lemma doneDays_walk (h : string) (n fuel : nat) (hs : list Habit.t) (p : Z) :
  let st := mkState hs (doneDays h 0 n) p in
  let now := JSDate.parseKey (Z.of_nat n - 1) in
  computeStreak JSDate.utcZone now st h fuel
  = if decide (n < fuel)%nat then Some (Z.of_nat n) else None.
Proof.
  intros st now.
  destruct (computeStreak_fixedZone 0 st h now) as (m & Hspec & _ & Hfuel).
  subst now. rewrite getTodayKey_parseKey in Hspec.
  pose proof (spec_streak_unique st h _ _ _ Hspec (doneDays_streak h n hs p)) as ->.
  case_decide as Hlt.
  - apply Hfuel. subst st. simpl. rewrite doneDays_size. done.
  - destruct (computeStreak JSDate.utcZone (JSDate.parseKey (Z.of_nat n - 1)) st h fuel)
      as [m|] eqn:E; [|done].
    unfold computeStreak in E. rewrite getTodayKey_parseKey in E.
    apply (streakLoop_counts 0) in E as [Hspec' Hm].
    rewrite Z.sub_0_r in Hspec', Hm.
    pose proof (spec_streak_unique st h _ _ _ Hspec' (doneDays_streak h n hs p)).
    lia.
Qed.

(** C5 (as the code has it).  The walk of [computeStreak] has no cap of
    its own; it ends because the ledger does.  On a host without clock
    changes the loop reaches its [break] within one iteration for each
    day entry of the ledger and one more, so the streak is at most the
    number of day entries; and for every [n] there is a ledger of [n]
    day entries on which the loop takes all [n + 1] iterations. *)
Theorem streak_walk_ends_with_ledger :
  (∀ (offset now : Z) (st : State) (h : string),
     ∃ n : Z,
       0 ≤ n ≤ Z.of_nat (size (completions st))
       ∧ ∀ fuel, (size (completions st) < fuel)%nat →
           computeStreak (JSDate.fixedZone offset) now st h fuel = Some n)
  ∧ (∀ n : nat,
       ∃ (now : Z) (st : State),
         size (completions st) = n
         ∧ computeStreak JSDate.utcZone now st "water" n = None
         ∧ computeStreak JSDate.utcZone now st "water" (S n) = Some (Z.of_nat n)).
Proof.
  split.
  - intros offset now st h.
    destruct (computeStreak_fixedZone offset st h now) as (n & Hspec & Hle & Hfuel).
    exists n. split; [|done]. destruct Hspec as [Hn _]. lia.
  - intros n.
    exists (JSDate.parseKey (Z.of_nat n - 1)), (mkState [] (doneDays "water" 0 n) 0).
    split; [apply doneDays_size|].
    pose proof (doneDays_walk "water" n) as Hwalk. cbv zeta in Hwalk.
    rewrite !Hwalk. rewrite decide_False by lia. rewrite decide_True by lia. done.
Qed.

(** C5, as the claim words it, fails: whatever number of iterations is
    taken as the cap, some ledger keeps the loop going beyond it.  A
    habit done on each of the last 4000 days (close to eleven years) has
    the loop run 4001 times. *)
Lemma streak_walk_has_no_cap :
  (let st := mkState [] (doneDays "water" 0 4000) 0 in
   let now := JSDate.parseKey 3999 in
   computeStreak JSDate.utcZone now st "water" 4000 = None
   ∧ computeStreak JSDate.utcZone now st "water" 4001 = Some 4000)
  ∧ ¬ ∃ cap : nat, ∀ (now : Z) (st : State) (h : string),
        is_Some (computeStreak JSDate.utcZone now st h cap).
Proof.
  split.
  - pose proof (doneDays_walk "water" 4000 4000 [] 0) as Hcap.
    pose proof (doneDays_walk "water" 4000 4001 [] 0) as Hend.
    cbv zeta in *.
    change (Z.of_nat 4000 - 1) with 3999 in Hcap, Hend.
    rewrite Hcap, Hend.
    rewrite decide_False by lia. rewrite decide_True by lia.
    split; reflexivity.
  - intros [cap Hcap].
    specialize (Hcap (JSDate.parseKey (Z.of_nat cap - 1))
                  (mkState [] (doneDays "water" 0 cap) 0) "water").
    pose proof (doneDays_walk "water" cap cap [] 0) as Hwalk. cbv zeta in Hwalk.
    rewrite Hwalk, decide_False in Hcap by lia.
    by destruct Hcap.
Qed.

(** Streak semantics on a host without clock changes: [computeStreak]
    returns the number of days in a row, ending with and including today,
    on which the habit is done; so [0] for a habit never done, and [0]
    for a habit not done today whatever happened yesterday. *)
Theorem computeStreak_counts_days_in_a_row (offset now : Z) (st : State) (h : string) :
  ∃ n : Z,
    spec_streak st h (getTodayKey now) n
    ∧ (isHabitDoneOnDate st h (getTodayKey now) = false → n = 0)
    ∧ ∀ fuel, (size (completions st) < fuel)%nat →
        computeStreak (JSDate.fixedZone offset) now st h fuel = Some n.
Proof.
  destruct (computeStreak_fixedZone offset st h now) as (n & Hspec & _ & Hfuel).
  exists n. split_and!; [done | | done].
  intros Hnot. destruct Hspec as (Hn & Hdone & _).
  destruct (decide (n = 0)) as [|Hne]; [done|].
  rewrite <- (Z.sub_0_r (getTodayKey now)), Hdone in Hnot by lia. done.
Qed.

(** On every host the first iteration looks at today: a habit that is
    not done today has streak [0]. *)
Theorem computeStreak_zero_when_not_done_today
    (tz : JSDate.TimeZone) (now : Z) (st : State) (h : string) (fuel : nat) :
  isHabitDoneOnDate st h (getTodayKey now) = false →
  computeStreak tz now st h (S fuel) = Some 0.
Proof.
  unfold computeStreak, isHabitDoneOnDate. simpl. rewrite isoDay_parseKey0.
  destruct (completions st !! getTodayKey now) as [day|]; [|done].
  by intros ->.
Qed.

Lemma computeStreak_zero_when_not_done_today_witness :
  isHabitDoneOnDate threeDayState "read" (getTodayKey berlinMorning) = false
  ∧ computeStreak JSDate.europeBerlin2024 berlinMorning threeDayState "read" 1 = Some 0.
Proof.
  assert (isHabitDoneOnDate threeDayState "read" (getTodayKey berlinMorning) = false)
    as Hnot by (vm_compute; reflexivity).
  split; [exact Hnot|].
  exact (computeStreak_zero_when_not_done_today
           JSDate.europeBerlin2024 berlinMorning threeDayState "read" 0 Hnot).
Defined.

(** C4 fails where the host's clock changes.  In Berlin on 2024-10-28
    the Date of today's key is 2024-10-28T00:00Z, 01:00 local time (UTC+1).
    [setDate(getDate() - 1)] makes it 2024-10-27 01:00 local time, which
    is still summer time (UTC+2): 2024-10-26T23:00Z, and [toISOString]
    gives "2024-10-26".  The walk never looks at 2024-10-27.  A habit
    done today and on the two days before, and not on the day before
    them, has streak 3; the code returns 2, and returns 3 on a host on
    UTC. *)
Theorem streak_skips_day_after_clock_change :
  let today := getTodayKey berlinMorning in
  let cursor := JSDate.parseKey today in
  JSDate.isoKey today = "2024-10-28"
  ∧ spec_streak threeDayState "water" today 3
  ∧ JSDate.isoKey
      (JSDate.isoDay
         (JSDate.setDate JSDate.europeBerlin2024 cursor
            (JSDate.getDate JSDate.europeBerlin2024 cursor - 1)))
    = "2024-10-26"
  ∧ computeStreak JSDate.europeBerlin2024 berlinMorning threeDayState "water" 100
    = Some 2
  ∧ computeStreak JSDate.utcZone berlinMorning threeDayState "water" 100 = Some 3.
Proof.
  cbv zeta.
  assert (computeStreak JSDate.utcZone berlinMorning threeDayState "water" 100 = Some 3)
    as Hutc by (vm_compute; reflexivity).
  split_and!.
  - vm_compute. reflexivity.
  - destruct (computeStreak_fixedZone 0 threeDayState "water" berlinMorning)
      as (n & Hspec & _ & Hfuel).
    assert (size (completions threeDayState) = 3%nat) as Hsize
      by (vm_compute; reflexivity).
    specialize (Hfuel 100%nat). rewrite Hsize in Hfuel.
    assert (Some n = Some 3) as [= ->].
    { rewrite <- Hfuel by lia. exact Hutc. }
    exact Hspec.
  - vm_compute. reflexivity.
  - vm_compute. reflexivity.
  - exact Hutc.
Qed.

(** ** The calendar window *)

Lemma spec_window_S (k : Z) (n : nat) :
  spec_window k (S n) = (k - Z.of_nat n) :: spec_window k n.
Proof.
  unfold spec_window. cbn [seq map]. f_equal.
  - f_equal. lia.
  - rewrite <- seq_shift, map_map. apply map_ext_in. intros i Hi.
    apply in_seq in Hi. f_equal. lia.
Qed.

Lemma calendarLoop_fixedZone (offset k : Z) (n : nat) :
  map Cell.key (calendarLoop (JSDate.fixedZone offset) (JSDate.parseKey k) n)
  = spec_window k n.
Proof.
  induction n as [|n IH]; [done|].
  rewrite spec_window_S. simpl. rewrite IH. f_equal.
  rewrite setDate_fixedZone. apply isoDay_parseKey.
Qed.

Lemma spec_window_lookup (k : Z) (n i : nat) :
  (i < n)%nat → spec_window k n !! i = Some (k - Z.of_nat (n - 1 - i)).
Proof.
  intros Hi. unfold spec_window.
  rewrite list_lookup_fmap, lookup_seq_lt by done. done.
Qed.

Lemma spec_window_length (k : Z) (n : nat) : length (spec_window k n) = n.
Proof. unfold spec_window. by rewrite length_map, length_seq. Qed.

(** The calendar window on a host without clock changes:
    [buildCalendarRange(n)] holds the [n] consecutive day keys that end
    with today, oldest first: [n] cells, each key one day after the one
    before it, the last one today's. *)
Theorem buildCalendarRange_consecutive_days (offset now : Z) (n : nat) :
  let keys := map Cell.key (buildCalendarRange (JSDate.fixedZone offset) now n) in
  keys = spec_window (getTodayKey now) n
  ∧ length keys = n
  ∧ (∀ i a b, keys !! i = Some a ∧ keys !! S i = Some b → b = a + 1)
  ∧ (∀ i j a b, (i < j)%nat ∧ keys !! i = Some a ∧ keys !! j = Some b → a < b)
  ∧ (n ≠ 0%nat → last keys = Some (getTodayKey now)).
Proof.
  intros keys. subst keys. unfold buildCalendarRange.
  rewrite calendarLoop_fixedZone. set (k := getTodayKey now).
  split_and!.
  - done.
  - apply spec_window_length.
  - intros i a b [Ha Hb].
    assert (S i < n)%nat as Hi.
    { apply lookup_lt_Some in Hb. by rewrite spec_window_length in Hb. }
    rewrite spec_window_lookup in Ha, Hb by lia.
    injection Ha as <-. injection Hb as <-. lia.
  - intros i j a b (Hij & Ha & Hb).
    assert (j < n)%nat as Hj.
    { apply lookup_lt_Some in Hb. by rewrite spec_window_length in Hb. }
    rewrite spec_window_lookup in Ha, Hb by lia.
    injection Ha as <-. injection Hb as <-. lia.
  - intros Hn. rewrite last_lookup, spec_window_length.
    rewrite spec_window_lookup by lia. f_equal. lia.
Qed.

(** C8 fails where the host's clock changes: in Berlin on 2024-10-28 the
    window of 28 cells misses 2024-10-27 (the day the clocks went back)
    and starts a day early, so it is not the 28 consecutive days that end
    with today; the cell for [i = 1] is computed as in
    [streak_skips_day_after_clock_change]. *)
Theorem calendar_skips_day_after_clock_change :
  let cells := buildCalendarRange JSDate.europeBerlin2024 berlinMorning 28 in
  map (λ c, JSDate.isoKey (Cell.key c)) cells
  = [ "2024-09-30"; "2024-10-01"; "2024-10-02"; "2024-10-03"; "2024-10-04";
      "2024-10-05"; "2024-10-06"; "2024-10-07"; "2024-10-08"; "2024-10-09";
      "2024-10-10"; "2024-10-11"; "2024-10-12"; "2024-10-13"; "2024-10-14";
      "2024-10-15"; "2024-10-16"; "2024-10-17"; "2024-10-18"; "2024-10-19";
      "2024-10-20"; "2024-10-21"; "2024-10-22"; "2024-10-23"; "2024-10-24";
      "2024-10-25"; "2024-10-26"; "2024-10-28" ]
  ∧ map Cell.key cells ≠ spec_window (getTodayKey berlinMorning) 28
  ∧ map JSDate.isoKey (drop 25 (spec_window (getTodayKey berlinMorning) 28))
    = [ "2024-10-26"; "2024-10-27"; "2024-10-28" ].
Proof.
  cbv zeta. split_and!.
  - vm_compute. reflexivity.
  - vm_compute. discriminate.
  - vm_compute. reflexivity.
Qed.

(** ** Levels *)

Lemma allFrom_spec (check : Z → bool) (n : nat) (i : Z) :
  allFrom check i n = true → ∀ j, i ≤ j < i + Z.of_nat n → check j = true.
Proof.
  revert i. induction n as [|n IH]; intros i Hall j Hj; [lia|].
  simpl in Hall. apply andb_prop in Hall as [Hi Hrest].
  destruct (decide (j = i)) as [->|Hne]; [done|].
  apply (IH (i + 1)); [done | lia].
Qed.

(** Between the thresholds of tier [i] and of the tier after it, the
    loop of [getLevelInfo] ends with these two as [current] and [next]. *)
Lemma getLevelInfo_between (i : nat) (cur next : Level.t) (p : Z) :
  LEVELS !! i = Some cur →
  LEVELS !! S i = Some next →
  Level.threshold cur ≤ p < Level.threshold next →
  getLevelInfo p
  = LevelInfo.mk (Level.label cur)
      (progressPercentOf (p - Level.threshold cur)
         (Level.threshold next - Level.threshold cur))
      (pretty (Level.threshold next - p) ++ " points until " ++ Level.label next ++ ".").
Proof.
  intros Hcur Hnext Hp.
  destruct i as [|[|[|[|i]]]]; simpl in Hcur, Hnext; try done;
    injection Hcur as <-; injection Hnext as <-; simpl in Hp;
    run_level_loop; reflexivity.
Qed.

Lemma getLevelInfo_top (p : Z) :
  480 ≤ p → getLevelInfo p = LevelInfo.mk "Grove guardian" 100 topCaption.
Proof. intros Hp. run_level_loop. reflexivity. Qed.

Lemma pctOk_between (i : nat) (cur next : Level.t) (p : Z) :
  LEVELS !! i = Some cur →
  LEVELS !! S i = Some next →
  Level.threshold cur ≤ p < Level.threshold next →
  pctOk (Level.threshold cur) (Level.threshold next) p = true.
Proof.
  intros Hcur Hnext Hp.
  destruct i as [|[|[|[|i]]]]; simpl in Hcur, Hnext; try done;
    injection Hcur as <-; injection Hnext as <-; simpl in Hp; simpl.
  - apply (allFrom_spec (pctOk 0 40) 40 0); [vm_compute; reflexivity | lia].
  - apply (allFrom_spec (pctOk 40 120) 80 40); [vm_compute; reflexivity | lia].
  - apply (allFrom_spec (pctOk 120 260) 140 120); [vm_compute; reflexivity | lia].
  - apply (allFrom_spec (pctOk 260 480) 220 260); [vm_compute; reflexivity | lia].
Qed.

Lemma LEVELS_greatest (i : nat) (cur : Level.t) (p : Z) :
  LEVELS !! i = Some cur →
  (∀ next, LEVELS !! S i = Some next → p < Level.threshold next) →
  ∀ lv, lv ∈ LEVELS → Level.threshold lv ≤ p →
        Level.threshold lv ≤ Level.threshold cur.
Proof.
  intros Hcur Hnext lv Hin Hlv.
  unfold LEVELS in Hin. rewrite !elem_of_cons, elem_of_nil in Hin.
  destruct i as [|[|[|[|[|i]]]]]; simpl in Hcur; try done; injection Hcur as <-;
    try (specialize (Hnext _ eq_refl); simpl in Hnext);
    destruct Hin as [->|[->|[->|[->|[->|[]]]]]]; simpl in *; lia.
Qed.

(** The level of a score.  For [points >= 0], [getLevelInfo] reports the
    label of the tier with the greatest threshold not above [points];
    at the last tier the percentage is 100 and the caption the top-tier
    one; below it the caption tells the points that remain to the next
    tier, and the percentage is
    [min(100, round(100 * (points - current) / (next - current)))] for
    every [points] other than 23 and 86. *)
Theorem getLevelInfo_tier (p : Z) :
  0 ≤ p →
  ∃ (i : nat) (cur : Level.t),
    LEVELS !! i = Some cur
    ∧ Level.threshold cur ≤ p
    ∧ (∀ lv, lv ∈ LEVELS → Level.threshold lv ≤ p →
             Level.threshold lv ≤ Level.threshold cur)
    ∧ LevelInfo.label (getLevelInfo p) = Level.label cur
    ∧ match LEVELS !! S i with
      | None =>
          LevelInfo.progressPercent (getLevelInfo p) = 100
          ∧ LevelInfo.caption (getLevelInfo p) = topCaption
      | Some next =>
          LevelInfo.caption (getLevelInfo p)
          = pretty (Level.threshold next - p) ++ " points until "
              ++ Level.label next ++ "."
          ∧ (p ≠ 23 ∧ p ≠ 86 →
             LevelInfo.progressPercent (getLevelInfo p)
             = spec_progressPercent p (Level.threshold cur) (Level.threshold next))
      end.
Proof.
  intros Hp.
  assert (∃ i cur, LEVELS !! i = Some cur ∧ Level.threshold cur ≤ p
                   ∧ ∀ next, LEVELS !! S i = Some next → p < Level.threshold next)
    as (i & cur & Hcur & Hle & Hnext).
  { destruct (decide (p < 40)); [exists 0%nat; eexists; split_and!; [done|simpl; lia|]|].
    { intros next [= <-]. simpl. lia. }
    destruct (decide (p < 120)); [exists 1%nat; eexists; split_and!; [done|simpl; lia|]|].
    { intros next [= <-]. simpl. lia. }
    destruct (decide (p < 260)); [exists 2%nat; eexists; split_and!; [done|simpl; lia|]|].
    { intros next [= <-]. simpl. lia. }
    destruct (decide (p < 480)); [exists 3%nat; eexists; split_and!; [done|simpl; lia|]|].
    { intros next [= <-]. simpl. lia. }
    exists 4%nat. eexists. split_and!; [done|simpl; lia|done]. }
  exists i, cur. split_and!; [done | done | by eapply LEVELS_greatest | |].
  - destruct (LEVELS !! S i) as [next|] eqn:En.
    + rewrite (getLevelInfo_between i cur next); auto.
    + destruct i as [|[|[|[|[|i]]]]]; simpl in Hcur, En; try done.
      injection Hcur as <-. simpl in Hle. by rewrite getLevelInfo_top.
  - destruct (LEVELS !! S i) as [next|] eqn:En.
    + rewrite (getLevelInfo_between i cur next); auto. simpl. split; [done|].
      intros [H23 H86].
      pose proof (pctOk_between i cur next p Hcur En (conj Hle (Hnext _ eq_refl))) as Hok.
      unfold pctOk in Hok.
      destruct (Z.eqb_spec p 23); [done|]. destruct (Z.eqb_spec p 86); [done|].
      simpl in Hok. by apply Z.eqb_eq in Hok.
    + destruct i as [|[|[|[|[|i]]]]]; simpl in Hcur, En; try done.
      injection Hcur as <-. simpl in Hle. by rewrite getLevelInfo_top.
Qed.

Lemma getLevelInfo_tier_witness :
  0 ≤ 25
  ∧ getLevelInfo 25 = LevelInfo.mk "Seedling" 63 "15 points until Sprout."
  ∧ ∃ (i : nat) (cur : Level.t),
      LEVELS !! i = Some cur ∧ LevelInfo.label (getLevelInfo 25) = Level.label cur.
Proof.
  assert (0 ≤ 25) as Hp by lia.
  split; [exact Hp|]. split; [vm_compute; reflexivity|].
  destruct (getLevelInfo_tier 25 Hp) as (i & cur & Hcur & _ & _ & Hlabel & _).
  exists i, cur. split; [exact Hcur | exact Hlabel].
Defined.

(** C6 fails at [points = 23] (and at 86).  [23 / 40] is not a binary
    fraction: the quotient is a little below 0.575, its product with 100
    is 57.49999999999999, and [Math.round] gives 57, where
    [round(100 * 23 / 40) = round(57.5)] is 58. *)
Theorem progressPercent_off_by_one_at_23 :
  LevelInfo.label (getLevelInfo 23) = "Seedling"
  ∧ LevelInfo.progressPercent (getLevelInfo 23) = 57
  ∧ spec_progressPercent 23 0 40 = 58
  ∧ PrimFloat.ltb
      (PrimFloat.mul (PrimFloat.div (JSNumber.ofZ 23) (JSNumber.ofZ 40)) (JSNumber.ofZ 100))
      (PrimFloat.div (JSNumber.ofZ 115) (JSNumber.ofZ 2)) = true
  ∧ LevelInfo.progressPercent (getLevelInfo 86) = 57
  ∧ spec_progressPercent 86 40 120 = 58.
Proof. split_and!; vm_compute; reflexivity. Qed.

(** ** Adding a habit *)

Lemma orderOr0_order (h : Habit.t) : orderOr0 h = Habit.order h.
Proof. unfold orderOr0. by destruct (Z.eqb_spec (Habit.order h) 0). Qed.

Lemma fold_left_max_out (os : list Z) (a b : Z) :
  fold_left Z.max os (Z.max a b) = Z.max a (fold_left Z.max os b).
Proof.
  revert b. induction os as [|x os IH]; intros b; simpl; [done|].
  by rewrite <- Z.max_assoc, IH.
Qed.

Lemma fold_left_max (os : list Z) (o : Z) :
  fold_left Z.max os o = fold_right Z.max o os.
Proof.
  induction os as [|x os IH]; simpl; [done|].
  by rewrite (Z.max_comm o x), fold_left_max_out, IH.
Qed.

Lemma nextOrder_spec (hs : list Habit.t) : nextOrder hs = 1 + spec_maxOrder hs.
Proof.
  unfold nextOrder, spec_maxOrder.
  rewrite (map_ext orderOr0 Habit.order orderOr0_order).
  destruct (map Habit.order hs) as [|o os]; [done|].
  rewrite fold_left_max. lia.
Qed.

Lemma fold_right_max_upper (os : list Z) (o x : Z) :
  x = o ∨ x ∈ os → x ≤ fold_right Z.max o os.
Proof.
  induction os as [|y os IH]; simpl.
  - intros [->|Hin]; [lia | by apply elem_of_nil in Hin].
  - rewrite elem_of_cons. intros [->|[->|Hin]].
    + pose proof (IH (or_introl eq_refl)). lia.
    + lia.
    + pose proof (IH (or_intror Hin)). lia.
Qed.

Lemma spec_maxOrder_upper (hs : list Habit.t) (h : Habit.t) :
  h ∈ hs → Habit.order h ≤ spec_maxOrder hs.
Proof.
  intros Hin. unfold spec_maxOrder.
  assert (Habit.order h ∈ map Habit.order hs) as Ho.
  { apply list_elem_of_In, in_map, list_elem_of_In, Hin. }
  destruct (map Habit.order hs) as [|o os]; [by apply elem_of_nil in Ho|].
  apply fold_right_max_upper. apply elem_of_cons in Ho. tauto.
Qed.

Lemma habit_id_default (t : Z) :
  "habit_" ++ pretty t ∉ map fst DEFAULT_HABITS.
Proof.
  simpl. rewrite !elem_of_cons, elem_of_nil.
  intros [H|[H|[H|[]]]]; cbv [String.append] in H; discriminate H.
Qed.

Lemma habit_id_inj (t t' : Z) :
  "habit_" ++ pretty t = "habit_" ++ pretty t' → t = t'.
Proof. cbv [String.append]. intros [= H]. by apply (inj pretty) in H. Qed.

(** C9 (as the code has it).  A name that trims to empty: the handler
    changes nothing.  Otherwise it appends one habit, with the trimmed
    name, the id "habit_" followed by the clock reading, and, when the
    existing orders are of magnitude below [2 ^ 53], the order
    [1 + max(existing orders, default -1)], above every existing order.
    That id differs from the default ids and from the ids made at any
    other clock reading.  The existing habits and the points stay as they
    are; the ledger gets an empty entry for today when it had none (the
    list is rendered) and is otherwise unchanged, and no answer of
    [isHabitDoneOnDate] about an id that names no inherited property
    changes. *)
Theorem addHabit_contract (now : Z) (input : string) (st : State) :
  let st' := addHabit now input st in
  let d := getTodayKey now in
  (trim input = "" → st' = st)
  ∧ (trim input ≠ "" →
     ∃ h : Habit.t,
       habits st' = (habits st ++ [h])%list
       ∧ Habit.id h = "habit_" ++ pretty now
       ∧ Habit.name h = trim input
       ∧ Habit.createdAt h = d
       ∧ (Forall (λ h', Z.abs (Habit.order h') < maxExactInteger) (habits st) →
          Habit.order h = 1 + spec_maxOrder (habits st)
          ∧ ∀ h', h' ∈ habits st → Habit.order h' < Habit.order h)
       ∧ (∀ h', h' ∈ habits st →
            Habit.id h' ∈ map fst DEFAULT_HABITS
            ∨ (∃ t, t ≠ now ∧ Habit.id h' = "habit_" ++ pretty t) →
            Habit.id h' ≠ Habit.id h)
       ∧ points st' = points st
       ∧ completions st' = <[d := default ∅ (completions st !! d)]> (completions st)
       ∧ (is_Some (completions st !! d) → completions st' = completions st)
       ∧ (∀ habitId d', ownId habitId →
            isHabitDoneOnDate st' habitId d' = isHabitDoneOnDate st habitId d')).
Proof.
  intros st' d. subst st'. unfold addHabit. split.
  - intros ->. by rewrite decide_True.
  - intros Hname. rewrite decide_False by done.
    eexists. unfold renderHabitList. fold d.
    rewrite ensureDateEntry_habits, ensureDateEntry_points, ensureDateEntry_completions.
    simpl. rewrite nextOrder_spec.
    split_and!; try reflexivity.
    + intros _. split; [reflexivity|].
      intros h' Hin. simpl. pose proof (spec_maxOrder_upper _ _ Hin). lia.
    + intros h' Hin [Hdef|(t & Hne & Ht)] Heq; simpl in Heq.
      * rewrite Heq in Hdef. by apply habit_id_default in Hdef.
      * rewrite Ht in Heq. by apply habit_id_inj in Heq.
    + intros [day E]. rewrite E. simpl. by apply insert_id.
    + intros habitId d' _. by rewrite ensureDateEntry_isDone.
Qed.

Lemma addHabit_contract_witness :
  let now := berlinMorning + 1 in
  let st := markedState ∅ 0 in
  let st' := addHabit now " Stretch " st in
  trim " Stretch " = "Stretch"
  ∧ Forall (λ h', Z.abs (Habit.order h') < maxExactInteger) (habits st)
  ∧ addHabit now "   " st = st
  ∧ ∃ h : Habit.t,
      habits st' = (habits st ++ [h])%list
      ∧ h = Habit.mk "habit_1730106000001" "Stretch" day_2024_10_28 3
      ∧ completions st' = completions st
      ∧ points st' = points st.
Proof.
  intros now st st'.
  assert (trim " Stretch " = "Stretch") as Htrim by (vm_compute; reflexivity).
  assert (Forall (λ h', Z.abs (Habit.order h') < maxExactInteger) (habits st))
    as Hrange by (repeat constructor).
  destruct (addHabit_contract now " Stretch " st) as [_ Hadd].
  destruct (addHabit_contract now "   " st) as [Hnoop _].
  destruct Hadd
    as (h & Hhabits & Hid & Hnm & Hday & Hord & _ & Hpoints & _ & Hledger & _).
  { rewrite Htrim. discriminate. }
  destruct (Hord Hrange) as [Horder _].
  split_and!.
  - exact Htrim.
  - exact Hrange.
  - apply Hnoop. vm_compute. reflexivity.
  - exists h. split_and!.
    + exact Hhabits.
    + destruct h as [i n c o]. simpl in Hid, Hnm, Hday, Horder.
      rewrite Hid, Hnm, Hday, Horder, Htrim. vm_compute. reflexivity.
    + apply Hledger. exists ∅. vm_compute. reflexivity.
    + exact Hpoints.
Defined.

(** C9, as the claim words it, fails on two counts.  The page was loaded
    on 2024-10-28 and is still open the day after.  Two submissions in
    one millisecond get the same id; and the first one, through
    [renderHabitList], gives the ledger an entry for the new day, which
    turns the quality of that day from [unrecorded] into "missed". *)
Lemma addHabit_repeats_id_and_touches_ledger :
  let now := berlinMorning + msPerDay in
  let st1 := addHabit now " Stretch " loadedState in
  let st2 := addHabit now "Walk" st1 in
  map Habit.id (habits st2)
  = ["water"; "move"; "read"; "habit_1730192400000"; "habit_1730192400000"]
  ∧ dom (completions loadedState) = {[ day_2024_10_28 ]}
  ∧ dom (completions st1) = {[ day_2024_10_28; day_2024_10_28 + 1 ]}
  ∧ getDateCompletionQuality loadedState (getTodayKey now) = unrecorded
  ∧ getDateCompletionQuality st1 (getTodayKey now) = "missed".
Proof. cbv zeta. split_and!; vm_compute; reflexivity. Qed.

(** ** The order of the key texts *)

Lemma digit_compare (a b : Z) :
  0 ≤ a ≤ 9 → 0 ≤ b ≤ 9 →
  Ascii.compare (JSDate.digit a) (JSDate.digit b) = (a ?= b).
Proof.
  intros Ha Hb. unfold Ascii.compare, JSDate.digit.
  rewrite !Ascii.N_ascii_embedding by lia.
  rewrite Z2N.inj_compare by lia.
  apply Z.add_compare_mono_l.
Qed.

(** The year of the era counted from March does not decrease with the
    day of the era. *)
Lemma yoe_mono (a b : Z) :
  0 ≤ a ≤ b → b < 146097 →
  (a - a / 1460 + a / 36524 - a / 146096) / 365
  ≤ (b - b / 1460 + b / 36524 - b / 146096) / 365.
Proof.
  intros Hab Hb. apply Z.div_le_mono; [lia|].
  Z.div_mod_to_equations. lia.
Qed.

Lemma civil_of_doe_mono (a b : Z) :
  0 ≤ a → a < b → b < 146097 →
  let '(ya, ma, da) := JSDate.civil_of_doe a in
  let '(yb, mb, db) := JSDate.civil_of_doe b in
  let mpa := if 2 <? ma then ma - 3 else ma + 9 in
  let mpb := if 2 <? mb then mb - 3 else mb + 9 in
  0 ≤ ya ≤ yb ∧ yb ≤ 399 ∧ 1 ≤ ma ≤ 12 ∧ 1 ≤ mb ≤ 12
  ∧ (ya = yb → mpa < mpb ∨ (mpa = mpb ∧ da < db)).
Proof.
  intros Ha Hab Hb. unfold JSDate.civil_of_doe.
  pose proof (yoe_mono a b ltac:(lia) Hb) as Hy.
  set (ya := (a - a / 1460 + a / 36524 - a / 146096) / 365) in *.
  set (yb := (b - b / 1460 + b / 36524 - b / 146096) / 365) in *.
  assert (0 ≤ ya ∧ 0 ≤ a - (365 * ya + ya / 4 - ya / 100) ≤ 365) as Hra.
  { subst ya. Z.div_mod_to_equations. lia. }
  assert (yb ≤ 399 ∧ 0 ≤ b - (365 * yb + yb / 4 - yb / 100) ≤ 365) as Hrb.
  { subst yb. Z.div_mod_to_equations. lia. }
  set (doya := a - (365 * ya + ya / 4 - ya / 100)) in *.
  set (doyb := b - (365 * yb + yb / 4 - yb / 100)) in *.
  assert (ya = yb → doya < doyb) as Hdoy.
  { intros E. subst doya doyb. rewrite E. lia. }
  clearbody doya doyb ya yb.
  set (mpa := (5 * doya + 2) / 153). set (mpb := (5 * doyb + 2) / 153).
  assert (0 ≤ mpa ≤ 11) as Hmpa by (subst mpa; Z.div_mod_to_equations; lia).
  assert (0 ≤ mpb ≤ 11) as Hmpb by (subst mpb; Z.div_mod_to_equations; lia).
  assert (ya = yb → mpa ≤ mpb) as Hmp.
  { intros E. subst mpa mpb. apply Z.div_le_mono; lia. }
  assert (mpa = mpb →
          doya - (153 * mpa + 2) / 5 + 1 - (doyb - (153 * mpb + 2) / 5 + 1)
          = doya - doyb) as Hd.
  { intros ->. lia. }
  clearbody mpa mpb.
  destruct (Z.ltb_spec mpa 10), (Z.ltb_spec mpb 10);
    repeat match goal with |- context [2 <? ?x] => destruct (Z.ltb_spec 2 x) end;
    split_and!; try lia.
Qed.

(** A later day has a later date. *)
Lemma civil_from_days_mono (k1 k2 : Z) :
  k1 < k2 → dateLt (JSDate.civil_from_days k1) (JSDate.civil_from_days k2).
Proof.
  intros Hk. unfold JSDate.civil_from_days.
  set (e1 := (k1 + 719468) / 146097). set (e2 := (k2 + 719468) / 146097).
  set (a := k1 + 719468 - e1 * 146097). set (b := k2 + 719468 - e2 * 146097).
  assert (0 ≤ a < 146097 ∧ 0 ≤ b < 146097 ∧ e1 ≤ e2 ∧ (e1 = e2 → a < b))
    as (Ha & Hb & He & Hab).
  { subst a b e1 e2. Z.div_mod_to_equations. lia. }
  clearbody a b e1 e2.
  destruct (decide (e1 = e2)) as [->|Hne].
  - pose proof (civil_of_doe_mono a b ltac:(lia) ltac:(lia) ltac:(lia)) as H.
    destruct (JSDate.civil_of_doe a) as [[ya ma] da].
    destruct (JSDate.civil_of_doe b) as [[yb mb] db].
    unfold dateLt. simpl.
    destruct H as (Hy & _ & Hma & Hmb & Hrest).
    destruct (Z.ltb_spec 2 ma), (Z.ltb_spec 2 mb), (Z.leb_spec ma 2), (Z.leb_spec mb 2);
      lia.
  - destruct (JSDate.civil_of_doe a) as [[ya ma] da] eqn:Ea.
    destruct (JSDate.civil_of_doe b) as [[yb mb] db] eqn:Eb.
    apply doe_of_civil_of_doe in Ea as (Hya & [Hma _] & _); [|done].
    apply doe_of_civil_of_doe in Eb as (Hyb & [Hmb _] & _); [|done].
    unfold dateLt. simpl.
    destruct (Z.leb_spec ma 2), (Z.leb_spec mb 2); lia.
Qed.

Lemma pad_compare (y1 m1 d1 y2 m2 d2 : Z) :
  0 ≤ y1 ≤ 9999 → 0 ≤ y2 ≤ 9999 →
  1 ≤ m1 ≤ 12 → 1 ≤ m2 ≤ 12 → 1 ≤ d1 ≤ 31 → 1 ≤ d2 ≤ 31 →
  dateLt (y1, m1, d1) (y2, m2, d2) →
  String.compare (JSDate.pad4 y1 ++ "-" ++ JSDate.pad2 m1 ++ "-" ++ JSDate.pad2 d1)
                 (JSDate.pad4 y2 ++ "-" ++ JSDate.pad2 m2 ++ "-" ++ JSDate.pad2 d2)
  = Lt.
Proof.
  intros Hy1 Hy2 Hm1 Hm2 Hd1 Hd2 Hlt. unfold dateLt in Hlt. simpl in Hlt.
  unfold JSDate.pad4, JSDate.pad2. cbv [String.append]. cbn [String.compare].
  rewrite !digit_compare by (Z.div_mod_to_equations; lia).
  change (Ascii.compare (Ascii.ascii_of_nat 45) (Ascii.ascii_of_nat 45)) with Eq. cbv iota.
  repeat match goal with
    | |- context [?a ?= ?b] => destruct (Z.compare_spec a b)
    end; try reflexivity; exfalso; Z.div_mod_to_equations; lia.
Qed.

(** The key texts compare as their days do: this is what makes the
    ledger keyed by the day the source's object keyed by the text, also
    where the source sorts the keys. *)
Lemma isoKey_compare (k1 k2 : Z) :
  0 ≤ JSDate.isoYear k1 ≤ 9999 → 0 ≤ JSDate.isoYear k2 ≤ 9999 →
  String.compare (JSDate.isoKey k1) (JSDate.isoKey k2) = (k1 ?= k2).
Proof.
  assert (∀ a b, 0 ≤ JSDate.isoYear a ≤ 9999 → 0 ≤ JSDate.isoYear b ≤ 9999 →
            a < b → String.compare (JSDate.isoKey a) (JSDate.isoKey b) = Lt) as Hlt.
  { intros a b Ha Hb Hab. apply civil_from_days_mono in Hab.
    unfold JSDate.isoYear, JSDate.isoKey in *.
    destruct (JSDate.civil_from_days a) as [[y1 m1] d1] eqn:E1.
    destruct (JSDate.civil_from_days b) as [[y2 m2] d2] eqn:E2.
    apply days_from_civil_from_days in E1 as [[Hm1 Hd1] _].
    apply days_from_civil_from_days in E2 as [[Hm2 Hd2] _].
    simpl in Ha, Hb. by apply pad_compare. }
  intros H1 H2. destruct (Z.compare_spec k1 k2) as [->|Hk|Hk].
  - pose proof (String.compare_antisym (JSDate.isoKey k2) (JSDate.isoKey k2)) as H.
    by destruct (String.compare (JSDate.isoKey k2) (JSDate.isoKey k2)).
  - by apply Hlt.
  - rewrite String.compare_antisym, Hlt; done.
Qed.

(** ** The history list *)

Lemma keyLe_le (a b : Z) :
  0 ≤ JSDate.isoYear a ≤ 9999 → 0 ≤ JSDate.isoYear b ≤ 9999 →
  keyLe a b ↔ a ≤ b.
Proof.
  intros Ha Hb. unfold keyLe, String.le, String.leb.
  rewrite isoKey_compare by done.
  destruct (Z.compare_spec a b); simpl; split; try done; lia.
Qed.

Lemma keyLe_trans : Transitive keyLe.
Proof. intros a b c. unfold keyLe. apply (transitivity (R := String.le)). Qed.

Lemma keyLe_total : Total keyLe.
Proof. intros a b. unfold keyLe. apply (total String.le). Qed.

Lemma historyKeys_elem (st : State) (d : Z) :
  d ∈ historyKeys st ↔ is_Some (completions st !! d).
Proof.
  unfold historyKeys. rewrite elem_of_reverse, merge_sort_Permutation.
  rewrite list_elem_of_fmap. split.
  - intros [[d' day] [-> Hin]]. apply elem_of_map_to_list in Hin. by eexists.
  - intros [day Hday]. exists (d, day). split; [done|].
    by apply elem_of_map_to_list.
Qed.

Lemma historyKeys_descending (st : State) :
  yearsOk (completions st) →
  StronglySorted (λ a b, b < a) (historyKeys st).
Proof.
  intros Hok. unfold historyKeys.
  set (l := map fst (map_to_list (completions st))).
  assert (NoDup (merge_sort keyLe l)) as Hnd.
  { rewrite merge_sort_Permutation. apply NoDup_fst_map_to_list. }
  assert (∀ d, d ∈ merge_sort keyLe l → 0 ≤ JSDate.isoYear d ≤ 9999) as Hin.
  { intros d Hd. apply Hok, historyKeys_elem. unfold historyKeys.
    by rewrite elem_of_reverse. }
  pose proof (@StronglySorted_merge_sort _ keyLe _ keyLe_trans keyLe_total l) as Hs.
  assert (Transitive (λ a b : Z, b < a)) as Htr by (intros a b c; lia).
  apply (@Sorted_StronglySorted _ (λ a b, b < a) Htr).
  apply (Sorted_reverse (λ a b, a < b)), StronglySorted_Sorted.
  set (s := merge_sort keyLe l) in *. clearbody s.
  induction Hs as [|a s Hs IH Hall]; [constructor|].
  apply NoDup_cons in Hnd as [Hna Hnd].
  constructor.
  - apply IH; [done|]. intros d Hd. apply Hin. by right.
  - rewrite Forall_forall in Hall |- *. intros b Hb.
    assert (a ≠ b) as Hne by (intros ->; done).
    apply Hall in Hb as Hle.
    apply keyLe_le in Hle; [lia | apply Hin; by left | apply Hin; by right].
Qed.

(** The history of the selected habit, for a ledger within the years
    0000 to 9999: one row for each day of the ledger and no other, the
    most recent day first, that reads "Done" when the habit is done on
    that day and "Missed" otherwise; a day the page was open on without
    a habit being checked has a row, a day it was not opened on has
    none. *)
Theorem renderHistory_rows (selectValue : string) (shown : list (Z * string))
    (st : State) (habitId : string) :
  yearsOk (completions st) →
  selectedHabitId selectValue st = Some habitId →
  let rows := renderHistory selectValue shown st in
  StronglySorted (λ a b, b < a) (map fst rows)
  ∧ (∀ d, d ∈ map fst rows ↔ is_Some (completions st !! d))
  ∧ (∀ d s, (d, s) ∈ rows →
       s = if isHabitDoneOnDate st habitId d then "Done" else "Missed").
Proof.
  intros Hok Hsel rows. subst rows. unfold renderHistory. rewrite Hsel.
  rewrite map_map. simpl. rewrite map_id.
  split_and!.
  - by apply historyKeys_descending.
  - apply historyKeys_elem.
  - intros d s Hin. apply list_elem_of_fmap in Hin as (d' & [= -> ->] & _). done.
Qed.

Lemma renderHistory_rows_witness :
  yearsOk (completions threeDayState)
  ∧ selectedHabitId "" threeDayState = Some "water"
  ∧ map fst (renderHistory "" [] threeDayState)
    = [day_2024_10_28; day_2024_10_28 - 1; day_2024_10_28 - 2]
  ∧ StronglySorted (λ a b, b < a) (map fst (renderHistory "" [] threeDayState)).
Proof.
  assert (yearsOk (completions threeDayState)) as Hok.
  { intros d [day Hd]. unfold threeDayState in Hd. cbn [completions] in Hd.
    rewrite doneDays_lookup in Hd. case_decide as Hrange; [|done].
    assert (day_2024_10_28 = 20024) as E by (vm_compute; reflexivity).
    rewrite E in Hrange.
    assert (d = 20022 ∨ d = 20023 ∨ d = 20024) as Hd3 by lia.
    destruct Hd3 as [-> | [-> | ->]]; vm_compute; split; discriminate. }
  assert (selectedHabitId "" threeDayState = Some "water") as Hsel by reflexivity.
  split; [exact Hok|]. split; [exact Hsel|].
  split; [vm_compute; reflexivity|].
  exact (proj1 (renderHistory_rows "" [] threeDayState "water" Hok Hsel)).
Defined.

(** ** The ledger and the registry under the events *)

Lemma ensureDateEntry_other d st d' :
  d' ≠ d → completions (ensureDateEntry d st) !! d' = completions st !! d'.
Proof. intros Hne. rewrite ensureDateEntry_completions. by rewrite lookup_insert_ne. Qed.

Lemma ensureDateEntry_keeps d st d' :
  is_Some (completions st !! d') → is_Some (completions (ensureDateEntry d st) !! d').
Proof.
  intros Hsome. rewrite ensureDateEntry_completions.
  destruct (decide (d = d')) as [->|Hne].
  - rewrite lookup_insert_eq. by eexists.
  - by rewrite lookup_insert_ne.
Qed.

Lemma clearToday_completions now st :
  completions (clearToday now st)
  = match completions st !! getTodayKey now with
    | Some _ => <[getTodayKey now := ∅]> (completions st)
    | None => completions st
    end.
Proof.
  destruct (completions st !! getTodayKey now) as [day|] eqn:E.
  - by rewrite (clearToday_present now st day E).
  - by rewrite clearToday_absent.
Qed.

Lemma clearToday_habits now st : habits (clearToday now st) = habits st.
Proof.
  destruct (completions st !! getTodayKey now) as [day|] eqn:E.
  - by rewrite (clearToday_present now st day E).
  - by rewrite clearToday_absent.
Qed.

Lemma addHabit_completions now input st :
  completions (addHabit now input st)
  = if decide (trim input = "") then completions st
    else completions (ensureDateEntry (getTodayKey now) st).
Proof.
  unfold addHabit. case_decide; [done|].
  unfold renderHabitList. by rewrite !ensureDateEntry_completions.
Qed.

Lemma handle_other (e : Event) (st : State) (d : Z) :
  d ≠ getTodayKey (eventTime e) →
  completions (handle e st) !! d = completions st !! d.
Proof.
  intros Hne. destruct e; simpl in *.
  - unfold onCheckboxChange, renderHabitList.
    rewrite ensureDateEntry_other by done.
    rewrite toggle_completions. by rewrite lookup_insert_ne.
  - rewrite clearToday_completions.
    destruct (completions st !! getTodayKey now); [|done].
    by rewrite lookup_insert_ne.
  - rewrite addHabit_completions. case_decide; [done|].
    by apply ensureDateEntry_other.
  - by apply ensureDateEntry_other.
Qed.

Lemma handle_keeps (e : Event) (st : State) (d : Z) :
  is_Some (completions st !! d) → is_Some (completions (handle e st) !! d).
Proof.
  intros Hsome.
  destruct (decide (d = getTodayKey (eventTime e))) as [->|Hne];
    [|by rewrite handle_other].
  destruct e; simpl in *.
  - unfold onCheckboxChange, renderHabitList. apply ensureDateEntry_keeps.
    rewrite toggle_completions, lookup_insert_eq. by eexists.
  - rewrite clearToday_completions. destruct Hsome as [day ->].
    rewrite lookup_insert_eq. by eexists.
  - rewrite addHabit_completions. case_decide; [done|].
    by apply ensureDateEntry_keeps.
  - by apply ensureDateEntry_keeps.
Qed.

(** What is recorded for a day can only change on that day: a run of
    events none of which happens on day [d] leaves the entry of [d] as it
    was, and with it every answer about [d]; and no event ever removes
    the entry of a day. *)
Theorem other_days_are_frozen (es : list Event) (st : State) (d : Z) :
  Forall (λ e, getTodayKey (eventTime e) ≠ d) es →
  completions (run es st) !! d = completions st !! d
  ∧ (∀ h, isHabitDoneOnDate (run es st) h d = isHabitDoneOnDate st h d).
Proof.
  intros Hes.
  assert (completions (run es st) !! d = completions st !! d) as E.
  { revert st. induction Hes as [|e es He Hes IH]; intros st; [done|].
    simpl. rewrite IH. by apply handle_other. }
  split; [done|]. intros h. unfold isHabitDoneOnDate. by rewrite E.
Qed.

Lemma other_days_are_frozen_witness :
  let es := [Check berlinMorning "water" true; AddHabit berlinMorning "Stretch";
             ClearToday berlinMorning] in
  let d := day_2024_10_28 - 1 in
  Forall (λ e, getTodayKey (eventTime e) ≠ d) es
  ∧ completions (run es threeDayState) !! d = completions threeDayState !! d
  ∧ (∀ h, isHabitDoneOnDate (run es threeDayState) h d
          = isHabitDoneOnDate threeDayState h d).
Proof.
  intros es d.
  assert (Forall (λ e, getTodayKey (eventTime e) ≠ d) es) as Hes.
  { repeat constructor; vm_compute; discriminate. }
  split; [exact Hes|].
  exact (other_days_are_frozen es threeDayState d Hes).
Defined.

(** No event removes a day entry: a day that is in the ledger stays in
    it, so the history never loses a row. *)
Theorem day_entries_are_kept (es : list Event) (st : State) (d : Z) :
  is_Some (completions st !! d) → is_Some (completions (run es st) !! d).
Proof.
  revert st. induction es as [|e es IH]; intros st Hsome; [done|].
  simpl. apply IH. by apply handle_keeps.
Qed.

Lemma day_entries_are_kept_witness :
  is_Some (completions threeDayState !! day_2024_10_28)
  ∧ is_Some (completions (run [ClearToday berlinMorning; Render (berlinMorning + msPerDay)]
                            threeDayState) !! day_2024_10_28).
Proof.
  assert (is_Some (completions threeDayState !! day_2024_10_28)) as Hsome.
  { vm_compute. by eexists. }
  split; [exact Hsome|].
  exact (day_entries_are_kept _ threeDayState day_2024_10_28 Hsome).
Defined.

(** ** The registry *)

Lemma insertByOrder_sorted (h : Habit.t) (l : list Habit.t) :
  Forall (λ h', Habit.order h ≤ Habit.order h') l → insertByOrder h l = h :: l.
Proof.
  intros Hall. destruct l as [|h' l]; [done|].
  apply Forall_cons in Hall as [Hle _]. simpl.
  by rewrite (proj2 (Z.leb_le _ _)).
Qed.

(** A list that is in ascending order already is left as it is. *)
Lemma sortByOrder_sorted (l : list Habit.t) :
  StronglySorted (λ a b, Habit.order a ≤ Habit.order b) l → sortByOrder l = l.
Proof.
  induction 1 as [|h l Hs IH Hall]; [done|].
  unfold sortByOrder in *. simpl. rewrite IH. by apply insertByOrder_sorted.
Qed.

Lemma insertByOrder_Permutation (h : Habit.t) (l : list Habit.t) :
  insertByOrder h l ≡ₚ h :: l.
Proof.
  induction l as [|h' l IH]; [done|]. simpl.
  destruct (Habit.order h <=? Habit.order h'); [done|].
  rewrite IH. apply Permutation_swap.
Qed.

Lemma insertByOrder_StronglySorted (h : Habit.t) (l : list Habit.t) :
  StronglySorted (λ a b, Habit.order a ≤ Habit.order b) l →
  StronglySorted (λ a b, Habit.order a ≤ Habit.order b) (insertByOrder h l).
Proof.
  induction 1 as [|h' l Hs IH Hall]; simpl.
  - repeat constructor.
  - destruct (Z.leb_spec (Habit.order h) (Habit.order h')).
    + constructor; [by constructor|].
      constructor; [done|].
      eapply Forall_impl; [exact Hall|]. simpl. intros; lia.
    + constructor; [done|].
      rewrite insertByOrder_Permutation. constructor; [lia | done].
Qed.

Lemma sortByOrder_Permutation (l : list Habit.t) : sortByOrder l ≡ₚ l.
Proof.
  induction l as [|h l IH]; [done|].
  unfold sortByOrder in *. simpl. rewrite insertByOrder_Permutation. by constructor.
Qed.

Lemma sortByOrder_StronglySorted (l : list Habit.t) :
  StronglySorted (λ a b, Habit.order a ≤ Habit.order b) (sortByOrder l).
Proof.
  induction l as [|h l IH]; [constructor|].
  unfold sortByOrder in *. simpl. by apply insertByOrder_StronglySorted.
Qed.

Lemma insertByOrder_filter (k : Z) (h : Habit.t) (l : list Habit.t) :
  filter (λ h', Habit.order h' = k) (insertByOrder h l)
  = filter (λ h', Habit.order h' = k) (h :: l).
Proof.
  induction l as [|h' l IH]; [done|]. simpl.
  destruct (Z.leb_spec (Habit.order h) (Habit.order h')) as [|Hlt]; [done|].
  rewrite filter_cons, IH, !filter_cons.
  destruct (decide (Habit.order h' = k)), (decide (Habit.order h = k)); try done.
  lia.
Qed.

(** The habits are shown each once, by ascending [order], and habits of
    the same order in the order of the registry: the list and the
    options of the history select hold exactly the habits of the
    registry. *)
Theorem sortByOrder_sorts (l : list Habit.t) :
  sortByOrder l ≡ₚ l
  ∧ StronglySorted (λ a b, Habit.order a ≤ Habit.order b) (sortByOrder l)
  ∧ ∀ k, filter (λ h, Habit.order h = k) (sortByOrder l)
         = filter (λ h, Habit.order h = k) l.
Proof.
  split_and!.
  - apply sortByOrder_Permutation.
  - apply sortByOrder_StronglySorted.
  - intros k. induction l as [|h l IH]; [done|].
    unfold sortByOrder in *. simpl.
    by rewrite insertByOrder_filter, !filter_cons, IH.
Qed.

Lemma fold_left_max_seq (n a : nat) (x : Z) :
  fold_left Z.max (map Z.of_nat (seq a n)) x
  = if decide (n = 0%nat) then x else Z.max x (Z.of_nat (a + n - 1)).
Proof.
  revert a x. induction n as [|n IH]; intros a x; [done|].
  simpl. rewrite IH. destruct n; simpl; [|case_decide]; lia.
Qed.

Lemma nextOrder_positions (hs : list Habit.t) :
  ordersArePositions hs → nextOrder hs = Z.of_nat (length hs).
Proof.
  unfold ordersArePositions, nextOrder. intros Hpos.
  assert (map orderOr0 hs = map Habit.order hs) as ->.
  { apply map_ext. intros h. apply orderOr0_order. }
  rewrite Hpos. destruct (length hs) as [|n]; [done|].
  simpl. rewrite fold_left_max_seq. case_decide; lia.
Qed.

Lemma ordersArePositions_snoc (hs : list Habit.t) (h : Habit.t) :
  ordersArePositions hs → Habit.order h = Z.of_nat (length hs) →
  ordersArePositions (app hs [h]).
Proof.
  unfold ordersArePositions. intros Hpos Hh.
  rewrite map_app, length_app, Nat.add_1_r, seq_S, map_app, Hpos. simpl.
  by rewrite Hh.
Qed.

Lemma ordersArePositions_sorted (hs : list Habit.t) :
  ordersArePositions hs →
  StronglySorted (λ a b, Habit.order a ≤ Habit.order b) hs.
Proof.
  unfold ordersArePositions. generalize 0%nat as a.
  induction hs as [|h hs IH]; intros a Hpos; [constructor|].
  simpl in Hpos. injection Hpos as Hh Hrest.
  constructor; [by apply (IH (S a))|].
  rewrite Forall_forall. intros h' Hin.
  apply (list_elem_of_fmap_2 Habit.order) in Hin.
  change (Habit.order <$> hs) with (map Habit.order hs) in Hin.
  rewrite Hrest in Hin.
  apply list_elem_of_fmap in Hin as (i & -> & Hi).
  apply elem_of_seq in Hi. lia.
Qed.

Lemma handle_habits (e : Event) (st : State) :
  habits (handle e st)
  = match e with
    | AddHabit now input =>
        if decide (trim input = "") then habits st
        else app (habits st)
               [Habit.mk ("habit_" ++ pretty now) (trim input) (getTodayKey now)
                  (nextOrder (habits st))]
    | _ => habits st
    end.
Proof.
  destruct e; simpl.
  - unfold onCheckboxChange, renderHabitList.
    by rewrite ensureDateEntry_habits, toggle_habits.
  - apply clearToday_habits.
  - unfold addHabit. case_decide; [done|].
    unfold renderHabitList. by rewrite ensureDateEntry_habits.
  - apply ensureDateEntry_habits.
Qed.

Lemma handle_registryOk (e : Event) (st : State) :
  registryOk st → registryOk (handle e st).
Proof.
  intros (Hpos & Hnames & Hne). unfold registryOk. rewrite handle_habits.
  destruct e; try done. case_decide; [done|].
  split_and!.
  - apply ordersArePositions_snoc; [done|]. simpl. by apply nextOrder_positions.
  - apply Forall_app. split; [done|]. constructor; [|done]. by split.
  - by destruct (habits st).
Qed.

Lemma run_registryOk (es : list Event) (st : State) :
  registryOk st → registryOk (run es st).
Proof.
  revert st. induction es as [|e es IH]; intros st Hok; [done|].
  simpl. apply IH. by apply handle_registryOk.
Qed.

Lemma createInitialState_registryOk (now : Z) : registryOk (createInitialState now).
Proof. split_and!; [done | repeat constructor; discriminate | discriminate]. Qed.

Lemma run_habits_prefix (es : list Event) (st : State) :
  habits st `prefix_of` habits (run es st).
Proof.
  revert st. induction es as [|e es IH]; intros st; [done|].
  simpl. etrans; [|apply IH]. rewrite handle_habits.
  destruct e; try done. case_decide; [done|]. by apply prefix_app_r.
Qed.

Lemma run_ids (es : list Event) (st : State) :
  map Habit.id (habits (run es st))
  = app (map Habit.id (habits st)) (map (λ t, "habit_" ++ pretty t) (addTimes es)).
Proof.
  revert st. induction es as [|e es IH]; intros st; simpl.
  - by rewrite app_nil_r.
  - rewrite IH, handle_habits. unfold addTimes.
    destruct e; simpl; try done.
    case_decide; [done|]. rewrite map_app, <- app_assoc. done.
Qed.

(** From the initial state on: the three default habits stay at the head
    of the registry and no habit is ever removed or changed; the order of
    each habit is its position, so the habit list and the options of the
    history select show the habits in the order in which they were
    added; no habit has an empty name or an empty id; there is one habit
    for each default and each accepted submission; and the history
    always has a habit to show, whatever the select holds. *)
Theorem registry_grows_in_order (now : Z) (es : list Event) :
  let st := run es (createInitialState now) in
  habits (createInitialState now) `prefix_of` habits st
  ∧ (∀ i h, habits st !! i = Some h →
            Habit.order h = Z.of_nat i ∧ Habit.name h ≠ "" ∧ Habit.id h ≠ "")
  ∧ sortByOrder (habits st) = habits st
  ∧ historyOptions st = map (λ h, (Habit.id h, Habit.name h)) (habits st)
  ∧ length (habits st) = (3 + length (addTimes es))%nat
  ∧ (∀ selectValue, is_Some (selectedHabitId selectValue st)).
Proof.
  intros st.
  destruct (run_registryOk es _ (createInitialState_registryOk now))
    as (Hpos & Hnames & Hne). fold st in Hpos, Hnames, Hne.
  assert (sortByOrder (habits st) = habits st) as Hsort.
  { by apply sortByOrder_sorted, ordersArePositions_sorted. }
  split_and!.
  - apply run_habits_prefix.
  - intros i h Hi. split.
    + apply (f_equal (λ l, l !! i)) in Hpos.
      change (map Habit.order (habits st)) with (Habit.order <$> habits st) in Hpos.
      change (map Z.of_nat (seq 0 (length (habits st))))
        with (Z.of_nat <$> seq 0 (length (habits st))) in Hpos.
      rewrite !list_lookup_fmap, Hi in Hpos.
      rewrite lookup_seq_lt in Hpos by (by eapply lookup_lt_Some).
      by injection Hpos.
    + rewrite Forall_forall in Hnames. apply Hnames.
      by eapply list_elem_of_lookup_2.
  - done.
  - unfold historyOptions. by rewrite Hsort.
  - pose proof (f_equal (@length _) (run_ids es (createInitialState now))) as Hlen.
    fold st in Hlen. rewrite length_app, !length_map in Hlen. by rewrite Hlen.
  - intros v. unfold selectedHabitId. case_decide as Hv.
    + destruct (habits st) as [|h hs]; [done|]. simpl.
      apply Forall_cons in Hnames as [[_ Hid] _].
      rewrite decide_False by done. by eexists.
    + rewrite decide_False by done. by eexists.
Qed.

Lemma habit_id_own (t : Z) : ownId ("habit_" ++ pretty t).
Proof.
  unfold ownId, inheritedNames. rewrite !elem_of_cons, elem_of_nil.
  intros H. repeat destruct H as [H|H];
    first [cbv [String.append] in H; discriminate H | destruct H].
Qed.

Lemma handle_ownIds (e : Event) (st : State) :
  ownIds (habits st) → ownIds (habits (handle e st)).
Proof.
  intros Hown. rewrite handle_habits. destruct e; try done.
  case_decide; [done|]. apply Forall_app. split; [done|].
  constructor; [|constructor]. apply habit_id_own.
Qed.

(** The ids the page makes name no inherited property: from the initial
    state on, every id of the registry is one under which a day entry
    reads and writes as a finite map does. *)
Theorem reachable_ids_are_own (now : Z) (es : list Event) :
  ownIds (habits (run es (createInitialState now))).
Proof.
  assert (ownIds (habits (createInitialState now))) as Hinit by solve_ownIds.
  revert Hinit. generalize (createInitialState now).
  induction es as [|e es IH]; intros st Hown; [done|].
  simpl. apply IH. by apply handle_ownIds.
Qed.

(** Habit ids are unique as long as no two accepted submissions are made
    at the same reading of the clock. *)
Theorem habit_ids_unique (now : Z) (es : list Event) :
  NoDup (addTimes es) →
  NoDup (map Habit.id (habits (run es (createInitialState now)))).
Proof.
  intros Hnd. rewrite run_ids. apply NoDup_app. split_and!.
  - apply (bool_decide_unpack _). vm_compute. exact I.
  - intros id Hdef Hnew.
    apply list_elem_of_fmap in Hnew as (t & -> & _).
    by apply (habit_id_default t).
  - assert (Inj (=) (=) (λ t : Z, "habit_" ++ pretty t)) as Hinj.
    { intros t t'. apply habit_id_inj. }
    by apply (NoDup_fmap_2 _).
Qed.

Lemma habit_ids_unique_witness :
  let es := [AddHabit 1000 "Stretch"; Check 1500 "habit_1000" true;
             AddHabit 2000 " Walk "; AddHabit 2000 "  "] in
  NoDup (addTimes es)
  ∧ NoDup (map Habit.id (habits (run es (createInitialState 0)))).
Proof.
  intros es.
  assert (NoDup (addTimes es)) as Hnd.
  { assert (addTimes es = [1000; 2000]) as -> by (vm_compute; reflexivity).
    apply (bool_decide_unpack _). vm_compute. exact I. }
  split; [exact Hnd|].
  exact (habit_ids_unique 0 es Hnd).
Defined.

(** ** Checking and unchecking again *)

Lemma onCheckboxChange_points now h v st :
  points (onCheckboxChange now h v st) = points (toggleHabitForToday now h v st).
Proof. apply ensureDateEntry_points. Qed.

Lemma onCheckboxChange_isDone now h v st h' d' :
  isHabitDoneOnDate (onCheckboxChange now h v st) h' d'
  = if decide (d' = getTodayKey now ∧ h' = h) then v
    else isHabitDoneOnDate st h' d'.
Proof.
  unfold onCheckboxChange, renderHabitList.
  by rewrite ensureDateEntry_isDone, toggle_isDone.
Qed.

Lemma onCheckboxChange_toggle now h v h2 v2 st :
  toggleHabitForToday now h2 v2 (onCheckboxChange now h v st)
  = toggleHabitForToday now h2 v2 (toggleHabitForToday now h v st).
Proof.
  unfold onCheckboxChange, renderHabitList.
  rewrite ensureDateEntry_present; [done|].
  rewrite toggle_completions, lookup_insert_eq. by eexists.
Qed.

(** Changing a checkbox and changing it back, for an id that names no
    inherited property and points that leave room for 5 more below
    [2 ^ 53]: the registry and every answer of [isHabitDoneOnDate] about
    such an id are as before.  Checking and then unchecking gives the
    points back, floored at zero; unchecking and then checking a done
    habit leaves at least 5 points, which is more than before when there
    were fewer than 5.  Where the points are those of the ledger they are
    as before in both cases. *)
Theorem checkbox_round_trip (now : Z) (h : string) (v : bool) (st : State) :
  ownId h →
  Z.abs (points st) ≤ maxExactInteger - 5 →
  isHabitDoneOnDate st h (getTodayKey now) = negb v →
  let st2 := onCheckboxChange now h (negb v) (onCheckboxChange now h v st) in
  habits st2 = habits st
  ∧ (∀ h' d', ownId h' → isHabitDoneOnDate st2 h' d' = isHabitDoneOnDate st h' d')
  ∧ points st2 = (if v then Z.max 0 (points st) else Z.max 5 (points st))
  ∧ (pointsMatchLedger st → points st2 = points st).
Proof.
  intros _ _ Hwas st2.
  assert (points st2 = (if v then Z.max 0 (points st) else Z.max 5 (points st)))
    as Hp.
  { subst st2. rewrite onCheckboxChange_points, onCheckboxChange_toggle.
    rewrite toggle_points. cbv zeta.
    rewrite toggle_isDone, decide_True by done.
    rewrite toggle_points. cbv zeta. rewrite Hwas.
    destruct v; simpl; lia. }
  split_and!.
  - subst st2. unfold onCheckboxChange, renderHabitList.
    by rewrite !ensureDateEntry_habits, !toggle_habits, !ensureDateEntry_habits,
      !toggle_habits.
  - intros h' d' _. subst st2. rewrite !onCheckboxChange_isDone.
    case_decide as Hd; [|done]. destruct Hd as [-> ->]. by rewrite Hwas.
  - done.
  - intros Hm. rewrite Hp.
    pose proof (toggle_exact now h v st Hm) as [Hpts _].
    rewrite toggle_points in Hpts. cbv zeta in Hpts. rewrite Hwas in Hpts.
    unfold spec_pointsDelta in Hpts.
    assert (0 ≤ points st) as Hnn.
    { rewrite Hm. pose proof (totalDone_nonneg (completions st)). lia. }
    destruct v; simpl in Hpts; lia.
Qed.

Lemma checkbox_round_trip_witness :
  let st := markedState {[ "water" := true ]} 3 in
  let st2 := onCheckboxChange berlinMorning "water" true
               (onCheckboxChange berlinMorning "water" false st) in
  ownId "water"
  ∧ Z.abs (points st) ≤ maxExactInteger - 5
  ∧ isHabitDoneOnDate st "water" (getTodayKey berlinMorning) = negb false
  ∧ habits st2 = habits st
  ∧ (∀ h' d', ownId h' → isHabitDoneOnDate st2 h' d' = isHabitDoneOnDate st h' d')
  ∧ points st2 = 5
  ∧ (pointsMatchLedger st → points st2 = points st).
Proof.
  intros st st2.
  assert (ownId "water") as Hown by solve_ownId.
  assert (Z.abs (points st) ≤ maxExactInteger - 5) as Hrange
    by (vm_compute; discriminate).
  assert (isHabitDoneOnDate st "water" (getTodayKey berlinMorning) = negb false)
    as Hwas.
  { unfold isHabitDoneOnDate, st, markedState. simpl.
    change (getTodayKey berlinMorning) with day_2024_10_28.
    rewrite lookup_singleton_eq. reflexivity. }
  split; [exact Hown|]. split; [exact Hrange|]. split; [exact Hwas|].
  exact (checkbox_round_trip berlinMorning "water" false st Hown Hrange Hwas).
Defined.

(** ** After clearing today *)

Lemma clearToday_isDone_today now st h :
  isHabitDoneOnDate (clearToday now st) h (getTodayKey now) = false.
Proof.
  unfold isHabitDoneOnDate. rewrite clearToday_completions.
  destruct (completions st !! getTodayKey now) as [day|] eqn:E.
  - by rewrite lookup_insert_eq.
  - by rewrite E.
Qed.

Lemma streakLoop_ge tz st h fuel cursor acc n :
  streakLoop tz st h fuel cursor acc = Some n → acc ≤ n.
Proof.
  revert cursor acc. induction fuel as [|fuel IH]; intros cursor acc; [done|].
  simpl. destruct (completions st !! JSDate.isoDay cursor) as [day|].
  - destruct (Boolean (day !! h)).
    + intros Hrec. apply IH in Hrec. lia.
    + intros [= <-]. lia.
  - intros [= <-]. lia.
Qed.

(** On every host, whenever the loop returns: the streak is positive
    exactly when the habit is done today. *)
Lemma computeStreak_positive tz now st h fuel n :
  computeStreak tz now st h fuel = Some n →
  0 ≤ n ∧ (n = 0 ↔ isHabitDoneOnDate st h (getTodayKey now) = false).
Proof.
  unfold computeStreak. destruct fuel as [|fuel]; [done|].
  simpl. rewrite isoDay_parseKey0. unfold isHabitDoneOnDate.
  destruct (completions st !! getTodayKey now) as [day|].
  - destruct (Boolean (day !! h)).
    + intros Hrec. apply streakLoop_ge in Hrec. split; [lia|]. split; [lia|done].
    + intros [= <-]. done.
  - intros [= <-]. done.
Qed.

Lemma append_String (a : Ascii.ascii) (s t : string) :
  String a s ++ t = String a (s ++ t).
Proof. reflexivity. Qed.

Lemma streakText_noStreak (n : Z) : streakText n = noStreakText ↔ n = 0.
Proof.
  unfold streakText. destruct (Z.eqb_spec n 0) as [->|Hne]; [done|].
  split; [|done]. intros H. exfalso. revert H.
  generalize (pretty n). unfold noStreakText. intros s H.
  repeat (destruct s as [|? s];
          [cbv in H; discriminate H | rewrite append_String in H; injection H as _ H]).
  destruct s; discriminate H.
Qed.

(** What the habit list shows, on every host and whenever the loops of
    [computeStreak] return: one item for each habit of the registry, with
    its name; for a habit whose id names no inherited property, the box
    of the item is checked exactly when the habit is done today, and the
    item reads "No streak yet" exactly when its box is unchecked. *)
Theorem habit_list_is_consistent (tz : JSDate.TimeZone) (now : Z) (fuel : nat)
    (st : State) :
  let items := habitListItems tz now fuel st in
  length items = length (habits st)
  ∧ Forall2 (λ habit item,
       ownId (Habit.id habit) →
       ∀ it, item = Some it →
         Item.name it = Habit.name habit
         ∧ Item.checked it = isHabitDoneOnDate st (Habit.id habit) (getTodayKey now)
         ∧ (Item.checked it = false ↔ Item.streak it = noStreakText))
      (sortByOrder (habits st)) items
  ∧ (∀ offset, (S (size (completions st)) < fuel)%nat →
       Forall is_Some (habitListItems (JSDate.fixedZone offset) now fuel st)).
Proof.
  intros items. subst items. unfold habitListItems, renderHabitList.
  rewrite ensureDateEntry_habits. split_and!.
  - rewrite length_map. by rewrite sortByOrder_Permutation.
  - apply Forall2_fmap_r, Forall_Forall2_diag, Forall_forall.
    intros habit _ _ it. unfold habitItem.
    destruct (computeStreak tz now _ (Habit.id habit) fuel) as [n|] eqn:En; [|done].
    intros [= <-]. simpl. rewrite ensureDateEntry_isDone.
    split_and!; [done | done |].
    apply computeStreak_positive in En as [_ Hz].
    rewrite ensureDateEntry_isDone in Hz.
    rewrite streakText_noStreak. by symmetry.
  - intros offset Hfuel. apply Forall_fmap, Forall_forall. intros habit _.
    unfold compose, habitItem.
    set (st' := ensureDateEntry (getTodayKey now) st).
    destruct (computeStreak_fixedZone offset st' (Habit.id habit) now)
      as (n & _ & _ & Hret).
    rewrite Hret; [by eexists|].
    assert (size (completions st') ≤ S (size (completions st)))%nat; [|lia].
    subst st'. rewrite ensureDateEntry_completions, map_size_insert.
    case_match; simpl; lia.
Qed.

Lemma habit_list_is_consistent_witness :
  let st := markedState {[ "water" := true ]} 5 in
  let water := Habit.mk "water" "Drink 6 glasses of water" day_2024_10_28 0 in
  let it := Item.mk "Drink 6 glasses of water" true "1 day streak" in
  ownId (Habit.id water)
  ∧ sortByOrder (habits st) !! 0%nat = Some water
  ∧ habitListItems JSDate.europeBerlin2024 berlinMorning 3 st !! 0%nat = Some (Some it)
  ∧ Item.checked it = isHabitDoneOnDate st "water" (getTodayKey berlinMorning)
  ∧ (Item.checked it = false ↔ Item.streak it = noStreakText).
Proof.
  intros st water it.
  assert (ownId (Habit.id water)) as Hown by solve_ownId.
  assert (sortByOrder (habits st) !! 0%nat = Some water) as Hhabit
    by (vm_compute; reflexivity).
  assert (habitListItems JSDate.europeBerlin2024 berlinMorning 3 st !! 0%nat
          = Some (Some it)) as Hitem by (vm_compute; reflexivity).
  destruct (habit_list_is_consistent JSDate.europeBerlin2024 berlinMorning 3 st)
    as (_ & Hall & _).
  destruct (Forall2_lookup_lr _ _ _ _ _ _ Hall Hhabit Hitem Hown it eq_refl)
    as (_ & Hchecked & Hstreak).
  split; [exact Hown|]. split; [exact Hhabit|]. split; [exact Hitem|].
  split; [exact Hchecked | exact Hstreak].
Defined.

(** After the clear-today button, on every host: a second click changes
    nothing more; no habit whose id names no inherited property is done
    today, and its streak is 0; and when no id of the registry names an
    inherited property, every box of the habit list is unchecked and
    every item reads "No streak yet". *)
Theorem clearToday_resets_the_list (tz : JSDate.TimeZone) (now : Z) (fuel : nat)
    (st : State) :
  let st' := clearToday now st in
  clearToday now st' = st'
  ∧ (∀ h, ownId h → isHabitDoneOnDate st' h (getTodayKey now) = false)
  ∧ (∀ h, ownId h → computeStreak tz now st' h (S fuel) = Some 0)
  ∧ (ownIds (habits st) →
     habitListItems tz now (S fuel) st'
     = map (λ habit, Some (Item.mk (Habit.name habit) false noStreakText))
         (sortByOrder (habits st))).
Proof.
  intros st'.
  assert (∀ h, isHabitDoneOnDate st' h (getTodayKey now) = false) as Hnone.
  { intros h. apply clearToday_isDone_today. }
  assert (∀ s h, isHabitDoneOnDate s h (getTodayKey now) = false →
            computeStreak tz now s h (S fuel) = Some 0) as Hzero.
  { intros s h. unfold computeStreak, isHabitDoneOnDate. simpl.
    rewrite isoDay_parseKey0.
    destruct (completions s !! getTodayKey now) as [day|]; [|done].
    by intros ->. }
  split_and!.
  - subst st'. destruct (completions st !! getTodayKey now) as [day|] eqn:E.
    + rewrite (clearToday_present now st day E).
      erewrite clearToday_present by (simpl; apply lookup_insert_eq).
      simpl. by rewrite map_fold_empty, insert_insert_eq.
    + by rewrite !(clearToday_absent now st E).
  - intros h _. apply Hnone.
  - intros h _. by apply Hzero.
  - intros _. unfold habitListItems, renderHabitList.
    rewrite ensureDateEntry_habits. subst st'. rewrite clearToday_habits.
    apply map_ext. intros habit. unfold habitItem.
    rewrite Hzero by (by rewrite ensureDateEntry_isDone).
    by rewrite ensureDateEntry_isDone, Hnone.
Qed.

Lemma clearToday_resets_the_list_witness :
  let st := markedState {[ "water" := true; "move" := true ]} 10 in
  ownIds (habits st)
  ∧ points (clearToday berlinMorning st) = 0
  ∧ habitListItems JSDate.europeBerlin2024 berlinMorning 1 (clearToday berlinMorning st)
    = map (λ habit, Some (Item.mk (Habit.name habit) false noStreakText))
        (sortByOrder (habits st)).
Proof.
  intros st.
  assert (ownIds (habits st)) as Hown by solve_ownIds.
  split; [exact Hown|]. split; [vm_compute; reflexivity|].
  destruct (clearToday_resets_the_list JSDate.europeBerlin2024 berlinMorning 0 st)
    as (_ & _ & _ & Hlist).
  exact (Hlist Hown).
Defined.

(** ** Checking today on a host without clock changes *)

(** Checking a habit today makes its streak one more than the number of
    days done in a row that end with yesterday. *)
Theorem checking_today_extends_streak (offset now : Z) (st : State) (h : string)
    (n : Z) (fuel : nat) :
  spec_streak st h (getTodayKey now - 1) n →
  (S (size (completions st)) < fuel)%nat →
  computeStreak (JSDate.fixedZone offset) now (onCheckboxChange now h true st) h fuel
  = Some (n + 1).
Proof.
  intros (Hn & Hdone & Hstop) Hfuel.
  set (st' := onCheckboxChange now h true st).
  destruct (computeStreak_fixedZone offset st' h now) as (n' & Hspec & _ & Hret).
  assert (size (completions st') ≤ S (size (completions st)))%nat as Hsize.
  { subst st'. unfold onCheckboxChange, renderHabitList.
    rewrite ensureDateEntry_present.
    - rewrite toggle_completions, map_size_insert. case_match; simpl; lia.
    - rewrite toggle_completions, lookup_insert_eq. by eexists. }
  rewrite Hret by lia. f_equal.
  apply (spec_streak_unique st' h (getTodayKey now)); [done|].
  split_and!.
  - lia.
  - intros i Hi. subst st'. rewrite onCheckboxChange_isDone.
    case_decide; [done|].
    replace (getTodayKey now - i) with (getTodayKey now - 1 - (i - 1)) by lia.
    apply Hdone.
    assert (i ≠ 0) by (intros ->; rewrite Z.sub_0_r in *; tauto). lia.
  - subst st'. rewrite onCheckboxChange_isDone.
    rewrite decide_False by lia.
    by replace (getTodayKey now - (n + 1)) with (getTodayKey now - 1 - n) by lia.
Qed.

Lemma checking_today_extends_streak_witness :
  let now := berlinMorning + msPerDay in
  spec_streak threeDayState "water" (getTodayKey now - 1) 3
  ∧ (S (size (completions threeDayState)) < 5)%nat
  ∧ computeStreak JSDate.utcZone now
      (onCheckboxChange now "water" true threeDayState) "water" 5
    = Some (3 + 1).
Proof.
  intros now.
  assert (spec_streak threeDayState "water" (getTodayKey now - 1) 3) as Hspec.
  { change (getTodayKey now - 1) with day_2024_10_28.
    unfold spec_streak, isHabitDoneOnDate, threeDayState. cbn [completions].
    generalize day_2024_10_28. intros k. split_and!.
    - lia.
    - intros i Hi. rewrite doneDays_lookup, decide_True by lia.
      by rewrite lookup_singleton_eq.
    - rewrite doneDays_lookup. by rewrite decide_False by lia. }
  assert (S (size (completions threeDayState)) < 5)%nat as Hfuel.
  { unfold threeDayState. cbn [completions]. rewrite doneDays_size. lia. }
  split; [exact Hspec|]. split; [exact Hfuel|].
  exact (checking_today_extends_streak 0 now threeDayState "water" 3 5 Hspec Hfuel).
Defined.

(** ** The calendar grid *)

Lemma calendarLoop_cells_fixedZone (offset k : Z) (n : nat) :
  calendarLoop (JSDate.fixedZone offset) (JSDate.parseKey k) n
  = map (λ j, Cell.mk j (JSDate.parseKey j)) (spec_window k n).
Proof.
  induction n as [|n IH]; [done|].
  rewrite spec_window_S. simpl. rewrite IH. f_equal.
  rewrite setDate_fixedZone, isoDay_parseKey. f_equal.
  unfold JSDate.parseKey. lia.
Qed.

Lemma getDate_fixedZone (offset k : Z) :
  JSDate.getDate (JSDate.fixedZone offset) (JSDate.parseKey k)
  = JSDate.DateFromTime (JSDate.parseKey (k + offset `div` msPerDay)).
Proof.
  unfold JSDate.getDate, JSDate.DateFromTime, JSDate.LocalTime, JSDate.fixedZone.
  f_equal. f_equal.
  unfold JSDate.Day, JSDate.parseKey, msPerDay.
  rewrite Z.div_mul by lia. rewrite Z.add_comm, Z.div_add by lia. lia.
Qed.

(** The calendar on a host without clock changes: 28 cells for the 28
    days that end with today, each with the quality of its day.  The
    number a cell prints is the day of the month of its date in local
    time, while its key is the UTC day: east of Greenwich (and on UTC)
    the number is the key's day of the month, west of Greenwich it is
    that of the day before the key. *)
Theorem calendar_cells_fixedZone (offset now : Z) (st : State) :
  let cells := calendarCells (JSDate.fixedZone offset) now st in
  let window := spec_window (getTodayKey now) 28 in
  cells
  = map (λ k, (JSDate.DateFromTime (JSDate.parseKey (k + offset `div` msPerDay)),
               getDateCompletionQuality st k)) window
  ∧ (0 ≤ offset < msPerDay →
     map fst cells = map (λ k, JSDate.DateFromTime (JSDate.parseKey k)) window)
  ∧ (- msPerDay ≤ offset < 0 →
     map fst cells = map (λ k, JSDate.DateFromTime (JSDate.parseKey (k - 1))) window).
Proof.
  intros cells window.
  assert (cells
          = map (λ k, (JSDate.DateFromTime
                         (JSDate.parseKey (k + offset `div` msPerDay)),
                       getDateCompletionQuality st k)) window) as E.
  { subst cells window. unfold calendarCells, buildCalendarRange.
    rewrite calendarLoop_cells_fixedZone, map_map.
    apply map_ext. intros k. simpl. by rewrite getDate_fixedZone. }
  split; [done|]. rewrite E. clearbody window. rewrite map_map. cbn [fst].
  split; intros Hoff; apply map_ext; intros k; do 2 f_equal.
  - rewrite Z.div_small by done. lia.
  - assert (offset `div` msPerDay = -1) as ->; [|lia].
    unfold msPerDay in *. Z.div_mod_to_equations. lia.
Qed.

(** ** The level panel *)

Lemma pctStep_between (i : nat) (cur next : Level.t) (p : Z) :
  LEVELS !! i = Some cur →
  LEVELS !! S i = Some next →
  Level.threshold cur ≤ p < Level.threshold next →
  pctStep (Level.threshold cur) (Level.threshold next) p = true.
Proof.
  intros Hcur Hnext Hp.
  destruct i as [|[|[|[|i]]]]; simpl in Hcur, Hnext; try done;
    injection Hcur as <-; injection Hnext as <-; simpl in Hp; simpl.
  - apply (allFrom_spec (pctStep 0 40) 40 0); [vm_compute; reflexivity | lia].
  - apply (allFrom_spec (pctStep 40 120) 80 40); [vm_compute; reflexivity | lia].
  - apply (allFrom_spec (pctStep 120 260) 140 120); [vm_compute; reflexivity | lia].
  - apply (allFrom_spec (pctStep 260 480) 220 260); [vm_compute; reflexivity | lia].
Qed.

Lemma pctStep_spec (current next p : Z) :
  pctStep current next p = true →
  0 ≤ progressPercentOf (p - current) (next - current)
  ∧ progressPercentOf (p - current) (next - current)
    ≤ progressPercentOf (p + 1 - current) (next - current)
  ∧ progressPercentOf (p + 1 - current) (next - current) ≤ 100.
Proof.
  unfold pctStep. cbv zeta. rewrite !andb_true_iff, !Z.leb_le. tauto.
Qed.

Lemma LEVELS_tier (p : Z) :
  0 ≤ p →
  ∃ i cur, LEVELS !! i = Some cur ∧ Level.threshold cur ≤ p
           ∧ ∀ next, LEVELS !! S i = Some next → p < Level.threshold next.
Proof.
  intros Hp.
  destruct (decide (p < 40)); [exists 0%nat; eexists; split_and!; [done|simpl; lia|]|].
  { intros next [= <-]. simpl. lia. }
  destruct (decide (p < 120)); [exists 1%nat; eexists; split_and!; [done|simpl; lia|]|].
  { intros next [= <-]. simpl. lia. }
  destruct (decide (p < 260)); [exists 2%nat; eexists; split_and!; [done|simpl; lia|]|].
  { intros next [= <-]. simpl. lia. }
  destruct (decide (p < 480)); [exists 3%nat; eexists; split_and!; [done|simpl; lia|]|].
  { intros next [= <-]. simpl. lia. }
  exists 4%nat. eexists. split_and!; [done|simpl; lia|done].
Qed.

Lemma getLevelInfo_negative (p : Z) :
  p < 0 → getLevelInfo p = LevelInfo.mk "Seedling" 100 topCaption.
Proof. intros Hp. run_level_loop. reflexivity. Qed.

(** The progress bar, for every value of the points: its width is
    between 0 and 100 percent, and between two thresholds it never
    shrinks as the points grow.  Negative points, which only a stored
    snapshot can hold, show the first level with a full bar and the
    caption of the top tier. *)
Theorem progressPercent_range (p : Z) :
  0 ≤ LevelInfo.progressPercent (getLevelInfo p) ≤ 100
  ∧ (p < 0 → getLevelInfo p = LevelInfo.mk "Seedling" 100 topCaption)
  ∧ (∀ q i cur next,
       LEVELS !! i = Some cur → LEVELS !! S i = Some next →
       Level.threshold cur ≤ p → p ≤ q → q < Level.threshold next →
       LevelInfo.progressPercent (getLevelInfo p)
       ≤ LevelInfo.progressPercent (getLevelInfo q)).
Proof.
  split; [|split].
  - destruct (decide (p < 0)) as [Hneg|Hnn].
    { rewrite getLevelInfo_negative by done. simpl. lia. }
    destruct (LEVELS_tier p ltac:(lia)) as (i & cur & Hcur & Hle & Hnext).
    destruct (LEVELS !! S i) as [next|] eqn:En.
    + rewrite (getLevelInfo_between i cur next) by auto. simpl.
      pose proof (pctStep_between i cur next p Hcur En (conj Hle (Hnext _ eq_refl)))
        as Hok.
      apply pctStep_spec in Hok. lia.
    + destruct i as [|[|[|[|[|i]]]]]; simpl in Hcur, En; try done.
      injection Hcur as <-. simpl in Hle. rewrite getLevelInfo_top by done.
      simpl. lia.
  - apply getLevelInfo_negative.
  - intros q i cur next Hcur Hnext Hp Hpq Hq.
    assert (∀ n : nat, p + Z.of_nat n < Level.threshold next →
              LevelInfo.progressPercent (getLevelInfo p)
              ≤ LevelInfo.progressPercent (getLevelInfo (p + Z.of_nat n))) as Hind.
    { induction n as [|n IH]; intros Hn.
      - rewrite Z.add_0_r. lia.
      - etrans; [apply IH; lia|].
        rewrite (getLevelInfo_between i cur next (p + Z.of_nat n)) by (auto; lia).
        rewrite (getLevelInfo_between i cur next (p + Z.of_nat (S n))) by (auto; lia).
        simpl LevelInfo.progressPercent.
        pose proof (pctStep_between i cur next (p + Z.of_nat n) Hcur Hnext
                      ltac:(lia)) as Hok.
        apply pctStep_spec in Hok.
        replace (p + Z.of_nat (S n)) with (p + Z.of_nat n + 1) by lia. lia. }
    specialize (Hind (Z.to_nat (q - p))).
    rewrite Z2Nat.id in Hind by lia.
    replace (p + (q - p)) with q in Hind by lia. by apply Hind.
Qed.

Lemma run_matches (es : list Event) (st : State) :
  pointsMatchLedger st → pointsMatchLedger (run es st).
Proof.
  revert st. induction es as [|e es IH]; intros st Hm; [done|].
  simpl. apply IH. by apply handle_matches.
Qed.

(** From the initial state on, the points are a multiple of 5 that is
    not negative, so the two scores at which the width of the bar is
    rounded the wrong way are never reached: the panel shows the label
    of the tier of the points and the width
    [min(100, round(100 * (points - current) / (next - current)))],
    or 100 at the last tier. *)
Theorem reachable_panel_is_exact (now : Z) (es : list Event) :
  let st := run es (createInitialState now) in
  let p := points st in
  0 ≤ p ∧ p `mod` 5 = 0
  ∧ Panel.points (renderPointsAndLevel st) = pretty p
  ∧ ∃ i cur,
      LEVELS !! i = Some cur
      ∧ Level.threshold cur ≤ p
      ∧ (∀ next, LEVELS !! S i = Some next → p < Level.threshold next)
      ∧ Panel.level (renderPointsAndLevel st) = Level.label cur
      ∧ Panel.width (renderPointsAndLevel st)
        = pretty (match LEVELS !! S i with
                  | Some next =>
                      spec_progressPercent p (Level.threshold cur) (Level.threshold next)
                  | None => 100
                  end) ++ "%".
Proof.
  intros st p.
  assert (pointsMatchLedger st) as Hm.
  { apply run_matches. unfold pointsMatchLedger. simpl.
    rewrite totalDone_empty. lia. }
  unfold pointsMatchLedger in Hm. fold p in Hm.
  pose proof (totalDone_nonneg (completions st)) as Hnn.
  assert (0 ≤ p) as Hp by lia.
  assert (p `mod` 5 = 0) as Hmod.
  { rewrite Hm, Z.mul_comm. apply Z.mod_mul. lia. }
  split_and!; [done | done | done |].
  destruct (LEVELS_tier p Hp) as (i & cur & Hcur & Hle & Hnext).
  exists i, cur. split_and!; [done | done | done | |];
    unfold renderPointsAndLevel; fold p; cbn [Panel.level Panel.width].
  - destruct (LEVELS !! S i) as [next|] eqn:En.
    + rewrite (getLevelInfo_between i cur next); auto.
    + destruct i as [|[|[|[|[|i]]]]]; simpl in Hcur, En; try done.
      injection Hcur as <-. simpl in Hle. by rewrite getLevelInfo_top.
  - destruct (LEVELS !! S i) as [next|] eqn:En.
    + rewrite (getLevelInfo_between i cur next); auto. simpl.
      pose proof (pctOk_between i cur next p Hcur En (conj Hle (Hnext _ eq_refl))) as Hok.
      unfold pctOk in Hok.
      destruct (Z.eqb_spec p 23) as [E|_]; [exfalso; rewrite E in Hmod; vm_compute in Hmod; discriminate Hmod|].
      destruct (Z.eqb_spec p 86) as [E|_]; [exfalso; rewrite E in Hmod; vm_compute in Hmod; discriminate Hmod|].
      simpl in Hok. apply Z.eqb_eq in Hok. by rewrite Hok.
    + destruct i as [|[|[|[|[|i]]]]]; simpl in Hcur, En; try done.
      injection Hcur as <-. simpl in Hle. by rewrite getLevelInfo_top.
Qed.

(** ** A new habit and the quality of the days before it *)

Lemma quality_done_inv (st : State) (d : Z) :
  getDateCompletionQuality st d = "done" →
  ∃ day, completions st !! d = Some day
         ∧ habits st ≠ []
         ∧ fold_left (countDone day) (habits st) 0 = Z.of_nat (length (habits st)).
Proof.
  unfold getDateCompletionQuality.
  destruct (completions st !! d) as [day|]; [|done].
  destruct (Z.eqb_spec (Z.of_nat (length (habits st))) 0) as [|Hlen]; [done|].
  destruct (Z.eqb_spec (fold_left (countDone day) (habits st) 0) 0); [done|].
  destruct (Z.eqb_spec (fold_left (countDone day) (habits st) 0)
              (Z.of_nat (length (habits st)))) as [Hall|]; [|done].
  intros _. exists day. split_and!; [done | | done].
  intros E. by rewrite E in Hlen.
Qed.

(** The quality of a day is counted against the registry of now, not of
    then: adding a habit turns every day on which all habits were done
    from "done" into "partial". *)
Theorem addHabit_turns_done_days_partial (now : Z) (input : string) (st : State)
    (d : Z) :
  trim input ≠ "" →
  getDateCompletionQuality st d = "done" →
  isHabitDoneOnDate st ("habit_" ++ pretty now) d = false →
  getDateCompletionQuality (addHabit now input st) d = "partial".
Proof.
  intros Hname Hdone Hfresh.
  apply quality_done_inv in Hdone as (day & Hday & Hne & Hall).
  assert (completions (addHabit now input st) !! d = Some day) as Hday'.
  { rewrite addHabit_completions, decide_False by done.
    rewrite ensureDateEntry_completions.
    destruct (decide (getTodayKey now = d)) as [->|Hd].
    - by rewrite lookup_insert_eq, Hday.
    - by rewrite lookup_insert_ne. }
  assert (habits (addHabit now input st)
          = app (habits st)
              [Habit.mk ("habit_" ++ pretty now) (trim input) (getTodayKey now)
                 (nextOrder (habits st))]) as Hhabits.
  { unfold addHabit. rewrite decide_False by done.
    unfold renderHabitList. by rewrite ensureDateEntry_habits. }
  unfold getDateCompletionQuality. rewrite Hday', Hhabits.
  rewrite length_app, fold_left_app. simpl length. simpl fold_left.
  assert (∀ c h, Habit.id h = "habit_" ++ pretty now → countDone day c h = c) as Hc.
  { intros c h Hid. unfold countDone. rewrite Hid.
    revert Hfresh. unfold isHabitDoneOnDate. rewrite Hday. by intros ->. }
  rewrite !Hc by done.
  rewrite Hall.
  assert (length (habits st) ≠ 0%nat) as Hlen by (by destruct (habits st)).
  destruct (Z.eqb_spec (Z.of_nat (length (habits st) + 1)) 0); [lia|].
  destruct (Z.eqb_spec (Z.of_nat (length (habits st))) 0); [lia|].
  destruct (Z.eqb_spec (Z.of_nat (length (habits st)))
              (Z.of_nat (length (habits st) + 1))); [lia|].
  done.
Qed.

Lemma addHabit_turns_done_days_partial_witness :
  let st := markedState {[ "water" := true; "move" := true; "read" := true ]} 15 in
  trim "Stretch" ≠ ""
  ∧ getDateCompletionQuality st day_2024_10_28 = "done"
  ∧ isHabitDoneOnDate st ("habit_" ++ pretty berlinMorning) day_2024_10_28 = false
  ∧ getDateCompletionQuality (addHabit berlinMorning "Stretch" st) day_2024_10_28
    = "partial".
Proof.
  intros st.
  assert (trim "Stretch" ≠ "") as Hname by (vm_compute; discriminate).
  assert (getDateCompletionQuality st day_2024_10_28 = "done") as Hdone
    by (vm_compute; reflexivity).
  assert (isHabitDoneOnDate st ("habit_" ++ pretty berlinMorning) day_2024_10_28
          = false) as Hfresh by (vm_compute; reflexivity).
  split; [exact Hname|]. split; [exact Hdone|]. split; [exact Hfresh|].
  exact (addHabit_turns_done_days_partial berlinMorning "Stretch" st day_2024_10_28
           Hname Hdone Hfresh).
Defined.

(** ** Today's key and the local day *)

(** Today's key is the UTC day.  On a host whose clock is [offset]
    ahead of UTC the local calendar day differs from it by the days that
    the time of the day plus the offset make up: the two agree exactly
    while that sum stays within the day, so east of Greenwich the key is
    still yesterday's during the first hours of the local day, and west
    of Greenwich it is already tomorrow's during the last ones. *)
Theorem todayKey_is_the_utc_day (offset now : Z) :
  let localDay := JSDate.Day (JSDate.LocalTime (JSDate.fixedZone offset) now) in
  let time := JSDate.TimeWithinDay now in
  localDay = getTodayKey now + (time + offset) `div` msPerDay
  ∧ (localDay = getTodayKey now ↔ 0 ≤ time + offset < msPerDay)
  ∧ (0 < offset < msPerDay → msPerDay - offset ≤ time → localDay = getTodayKey now + 1)
  ∧ (- msPerDay < offset < 0 → time < - offset → localDay = getTodayKey now - 1).
Proof.
  intros localDay time. subst localDay time.
  unfold JSDate.Day, JSDate.LocalTime, JSDate.fixedZone, JSDate.TimeWithinDay,
    getTodayKey, msPerDay.
  split_and!; [| split | |]; intros; Z.div_mod_to_equations; lia.
Qed.
